(** * The meal problem of [meal-optimizer.py]

    A shallow embedding of the script that declares "The Meal Problem" with
    PuLP, and of the solving core that the specification describes, together
    with the properties of the specification that concern them.

    Numbers.  The script writes its coefficients as decimal literals; they are
    embedded as the rationals they denote ([0.1649] is [1649 # 10000]), and
    sums and products are those of the rationals.  Python computes with binary
    floating-point numbers, so an amount that the script computes agrees with
    the rational of the embedding up to rounding only: the properties below
    are about the amounts that the declared coefficients define, and none of
    them is about the digits that Python prints for a computed amount.

    Objects.  Every call of the [LpVariable] constructor makes a new object.
    The interpreter state threaded through the script is the list of the
    [LpVariable] objects made so far; an object is identified by its position
    [vid] in that list, as PuLP identifies a variable by [id(self)].  Its
    mutable field [varValue] lives in a separate store, written by the solver. *)

From Stdlib Require Import Ascii QArith Qabs Qround ZArith Lia Lqa Sorted.
From stdpp Require Import gmap strings list.

Open Scope string_scope.
Open Scope list_scope.

(** ** Python values and errors *)

(** What a [PulpError] of this script's calls says: the fixed text of the
    message, with the Python value that PuLP appends to it. *)
Inductive PulpMessage : Type :=
  | overlapping_constraint_names (nm : string)
  | variable_names_too_long (long_names : list string)
  | repeated_variable_names (repeated_names : list (string * nat)).

Inductive PyError : Type :=
  | KeyError (key : string)
  | TypeError (msg : string)
  | PulpError (msg : PulpMessage).

Inductive result (A : Type) : Type :=
  | Ok (a : A)
  | Raise (e : PyError).
Arguments Ok {A} a.
Arguments Raise {A} e.

(** A dict literal: a later entry for a key replaces an earlier one. *)
Definition py_dict {V : Type} (entries : list (string * V)) : gmap string V :=
  fold_left (fun d kv => <[kv.1 := kv.2]> d) entries ∅.

(** ** PuLP constants *)

Inductive LpCategory : Type := LpContinuous | LpInteger | LpBinary.

Definition LpMinimize : Z := 1.
Definition LpMaximize : Z := -1.

Definition LpConstraintLE : Z := -1.
Definition LpConstraintEQ : Z := 0.
Definition LpConstraintGE : Z := 1.

Definition LpStatusNotSolved : Z := 0.
Definition LpStatusOptimal : Z := 1.
Definition LpStatusInfeasible : Z := -1.
Definition LpStatusUnbounded : Z := -2.
Definition LpStatusUndefined : Z := -3.

Definition LpStatus : gmap Z string :=
  list_to_map
    [ (LpStatusNotSolved, "Not Solved"); (LpStatusOptimal, "Optimal");
      (LpStatusInfeasible, "Infeasible"); (LpStatusUnbounded, "Unbounded");
      (LpStatusUndefined, "Undefined") ].

(** ** PuLP objects *)

Record LpVariable : Type := mkLpVariable {
  vid : nat;
  name : string;
  lowBound : option Q;
  upBound : option Q;
  cat : LpCategory
}.

(** An affine expression is an ordered dict from variable objects to
    coefficients, with a constant. *)
Record LpAffineExpression : Type := mkExpr {
  terms : list (LpVariable * Q);
  constant : Q
}.

Record LpConstraint : Type := mkConstraint {
  lhs : LpAffineExpression;
  sense : Z;
  rhs : Q
}.

Record LpProblem : Type := mkProblem {
  pname : string;
  psense : Z;
  objective : option (string * LpAffineExpression);
  constraints : list (string * LpConstraint)
}.

(** ** Errors, and the interpreter monad: the objects made so far *)

#[global] Instance result_ret : MRet result := fun A a => Ok a.
#[global] Instance result_bind : MBind result := fun A B f m =>
  match m with
  | Ok a => f a
  | Raise e => Raise e
  end.

Definition Py (A : Type) : Type := list LpVariable -> result (A * list LpVariable).

#[global] Instance Py_ret : MRet Py := fun A a heap => Ok (a, heap).
#[global] Instance Py_bind : MBind Py := fun A B f m heap =>
  match m heap with
  | Ok (a, heap') => f a heap'
  | Raise e => Raise e
  end.

(** A computation that makes no object. *)
Definition lift {A : Type} (r : result A) : Py A := fun heap =>
  match r with
  | Ok a => Ok (a, heap)
  | Raise e => Raise e
  end.

(** [d[k]] *)
Definition getitem {V : Type} (d : gmap string V) (k : string) : result V :=
  match d !! k with
  | Some v => Ok v
  | None => Raise (KeyError k)
  end.

(** PuLP replaces the characters of ["-+[] ->/"] in the name of a variable
    by ["_"]. *)
Definition illegal_char (c : Ascii.ascii) : bool :=
  bool_decide (c ∈ ["-"; "+"; "["; "]"; " "; ">"; "/"]%char).

Fixpoint translate (s : string) : string :=
  match s with
  | EmptyString => EmptyString
  | String c rest =>
      String (if illegal_char c then "_"%char else c) (translate rest)
  end.

(** In the name of an expression or of a constraint it replaces the
    characters of ["-+[] "]. *)
Definition illegal_in_expression (c : Ascii.ascii) : bool :=
  bool_decide (c ∈ ["-"; "+"; "["; "]"; " "]%char).

Fixpoint translate_expression (s : string) : string :=
  match s with
  | EmptyString => EmptyString
  | String c rest =>
      String (if illegal_in_expression c then "_"%char else c) (translate_expression rest)
  end.

(** [LpVariable(name, lowBound, upBound, cat)] *)
Definition LpVariable_new (nm : string) (lb ub : option Q) (c : LpCategory)
  : Py LpVariable :=
  fun heap =>
    let v :=
      match c with
      | LpBinary => mkLpVariable (length heap) (translate nm) (Some 0%Q) (Some 1%Q) LpInteger
      | _ => mkLpVariable (length heap) (translate nm) lb ub c
      end in
    Ok (v, heap ++ [v]).

(** [LpVariable.dicts(name, indices, lowBound, upBound, cat)] for a [name]
    that holds no ["%"], as the script calls it: one new variable named
    [name_i] per index [i], in the order of [indices].  (PuLP takes a name
    that holds a ["%"] for a format of its own, which is not embedded.) *)
Fixpoint LpVariable_dicts_from (d : gmap string LpVariable) (nm : string)
    (indices : list string) (lb ub : option Q) (c : LpCategory)
  : Py (gmap string LpVariable) :=
  match indices with
  | [] => mret d
  | i :: rest =>
      v ← LpVariable_new (nm +:+ "_" +:+ i) lb ub c;
      LpVariable_dicts_from (<[i := v]> d) nm rest lb ub c
  end.

Definition LpVariable_dicts := LpVariable_dicts_from ∅.

(** ["%" in name] *)
Definition has_percent (nm : string) : bool :=
  existsb (Ascii.eqb "%"%char) (String.list_ascii_of_string nm).

(** ** Affine expressions *)

Definition empty_expr : LpAffineExpression := mkExpr [] 0%Q.

(** [k * v]: the expression [{v: 1}] times the number [k]; PuLP returns the
    empty expression when [k] is zero. *)
Definition scale (k : Q) (v : LpVariable) : LpAffineExpression :=
  if Qeq_bool k 0 then empty_expr else mkExpr [(v, (k * 1)%Q)] (0 * k)%Q.

(** [addterm]: add to the coefficient of a variable that is already a key,
    append a new key otherwise.  Keys are objects. *)
Fixpoint addterm (ts : list (LpVariable * Q)) (v : LpVariable) (x : Q)
  : list (LpVariable * Q) :=
  match ts with
  | [] => [(v, x)]
  | (w, y) :: rest =>
      if Nat.eqb (vid w) (vid v) then (w, (y + x)%Q) :: rest
      else (w, y) :: addterm rest v x
  end.

Definition addInPlace (e other : LpAffineExpression) : LpAffineExpression :=
  mkExpr (fold_left (fun ts vx => addterm ts vx.1 vx.2) (terms other) (terms e))
         (constant e + constant other)%Q.

Definition lpSum (vector : list LpAffineExpression) : LpAffineExpression :=
  fold_left addInPlace vector empty_expr.

(** [[table[i] * ingredient_vars[i] for i in indices]] *)
Fixpoint products (table : gmap string Q) (vars : gmap string LpVariable)
    (indices : list string) : result (list LpAffineExpression) :=
  match indices with
  | [] => mret []
  | i :: rest =>
      k ← getitem table i;
      v ← getitem vars i;
      es ← products table vars rest;
      mret (scale k v :: es)
  end.

Definition expr_ge (e : LpAffineExpression) (k : Q) := mkConstraint e LpConstraintGE k.
Definition expr_le (e : LpAffineExpression) (k : Q) := mkConstraint e LpConstraintLE k.

(** ** Problems *)

Definition replace_spaces (s : string) : string :=
  (fix go s := match s with
               | EmptyString => EmptyString
               | String c rest => String (if Ascii.eqb c " "%char then "_"%char else c) (go rest)
               end) s.

Definition LpProblem_new (nm : string) (sns : Z) : LpProblem :=
  mkProblem (replace_spaces nm) sns None [].

(** [problem += (expression, name)]: the expression becomes the objective,
    under its name with the illegal characters replaced. *)
Definition set_objective (p : LpProblem) (e : LpAffineExpression) (nm : string)
  : LpProblem :=
  mkProblem (pname p) (psense p) (Some (translate_expression nm, e)) (constraints p).

Definition has_constraint (p : LpProblem) (nm : string) : bool :=
  existsb (fun nc => String.eqb nc.1 nm) (constraints p).

(** [problem += (constraint, name)], the name not empty: the constraint is
    kept under its name with the illegal characters replaced, and refused
    when that name is in use already. *)
Definition addConstraint (p : LpProblem) (c : LpConstraint) (nm : string)
  : result LpProblem :=
  let nm := translate_expression nm in
  if has_constraint p nm
  then Raise (PulpError (overlapping_constraint_names nm))
  else Ok (mkProblem (pname p) (psense p) (objective p) (constraints p ++ [(nm, c)])).

(** [addVariables]: a variable object is registered once. *)
Definition addVariables (vs : list LpVariable) (new : list LpVariable)
  : list LpVariable :=
  fold_left
    (fun acc v => if existsb (fun w => Nat.eqb (vid w) (vid v)) acc then acc else acc ++ [v])
    new vs.

Fixpoint insert_by_name (v : LpVariable) (vs : list LpVariable) : list LpVariable :=
  match vs with
  | [] => [v]
  | w :: rest =>
      if String.ltb (name v) (name w) then v :: w :: rest
      else w :: insert_by_name v rest
  end.

Definition sort_by_name (vs : list LpVariable) : list LpVariable :=
  fold_left (fun acc v => insert_by_name v acc) vs [].

Definition expr_vars (e : LpAffineExpression) : list LpVariable := (terms e).*1.

(** [problem.variables()], called once the objective and the constraints
    are added.  Each [+=] of a constraint has registered the variables of
    that constraint; the call registers the variables of the objective that
    are not registered yet, and sorts the list by name.  The sort is stable:
    objects of one name stay in the order of their registration. *)
Definition variables (p : LpProblem) : list LpVariable :=
  let from_constraints :=
    fold_left (fun acc nc => addVariables acc (expr_vars (lhs nc.2)))
              (constraints p) [] in
  sort_by_name
    match objective p with
    | Some (_, e) => addVariables from_constraints (expr_vars e)
    | None => from_constraints
    end.

(** The number of the variables of a list that have a name. *)
Definition count_name (nm : string) (vs : list LpVariable) : nat :=
  length (filter (fun v => name v = nm) vs).

(** [len(s)]: the number of the code points of a string, which the embedding
    holds as the bytes of its UTF-8 encoding. *)
Definition continuation_byte (c : Ascii.ascii) : bool :=
  let n := Ascii.nat_of_ascii c in (128 <=? n)%nat && (n <? 192)%nat.

Definition py_len (s : string) : nat :=
  length (List.filter (fun c => negb (continuation_byte c)) (String.list_ascii_of_string s)).

(** [checkLengthVars(max_length)]: the names longer than [max_length] are
    refused. *)
Definition long_names (max_length : nat) (vs : list LpVariable) : list string :=
  name <$> filter (fun v => (max_length < py_len (name v))%nat) vs.

Definition checkLengthVars (p : LpProblem) (max_length : nat) : result unit :=
  match long_names max_length (variables p) with
  | [] => Ok tt
  | nm :: nms => Raise (PulpError (variable_names_too_long (nm :: nms)))
  end.

(** [checkDuplicateVars()]: a dict counts the variables of each name, in the
    order in which the names are met; the names counted twice or more are
    refused.
    [repeated_names[v.name] = repeated_names.get(v.name, 0) + 1] *)
Fixpoint count_up (nm : string) (counts : list (string * nat)) : list (string * nat) :=
  match counts with
  | [] => [(nm, 1%nat)]
  | (k, n) :: rest =>
      if String.eqb k nm then (k, S n) :: rest else (k, n) :: count_up nm rest
  end.

Definition name_counts (vs : list LpVariable) : list (string * nat) :=
  fold_left (fun counts v => count_up (name v) counts) vs [].

Definition repeated_names (vs : list LpVariable) : list (string * nat) :=
  filter (fun kn => (2 <= kn.2)%nat) (name_counts vs).

Definition checkDuplicateVars (p : LpProblem) : result unit :=
  match repeated_names (variables p) with
  | [] => Ok tt
  | r :: rs => Raise (PulpError (repeated_variable_names (r :: rs)))
  end.

(** PuLP gives a dummy variable to an objective that is not set or holds no
    variable, and to a constraint that holds no variable, before it writes
    them. *)
Definition no_variable_in (e : LpAffineExpression) : bool :=
  match terms e with [] => true | _ :: _ => false end.

Definition needs_dummy (p : LpProblem) : bool :=
  match objective p with
  | Some (_, e) => no_variable_in e
  | None => true
  end
  || existsb (fun nc => no_variable_in (lhs nc.2)) (constraints p).

(** [problem.writeLP(...)] for a problem that needs no dummy variable, as the
    one of the script.  The file itself is outside the embedding; once the
    objective and the constraints are written, PuLP refuses a variable name of
    more than 100 characters, and then a name that two variables have. *)
Definition writeLP (p : LpProblem) : result unit :=
  _ ← checkLengthVars p 100; checkDuplicateVars p.

(** ** Values of variables and expressions *)

(** [varValue] of each object that has been given one. *)
Abbreviation Store := (gmap nat Q).

Definition varValue (st : Store) (v : LpVariable) : option Q := st !! vid v.

(** [LpAffineExpression.value()]: [None] as soon as a variable has no value;
    the constant and the products in the order of the terms otherwise, added
    up as rationals. *)
Fixpoint value_from (st : Store) (ts : list (LpVariable * Q)) (s : Q) : option Q :=
  match ts with
  | [] => Some s
  | (v, x) :: rest =>
      match varValue st v with
      | None => None
      | Some y => value_from st rest (s + y * x)%Q
      end
  end.

Definition value (st : Store) (e : LpAffineExpression) : option Q :=
  value_from st (terms e) (constant e).

(** ** The script: data *)

Definition Ingredients : list string :=
  ["FRANGO"; "ARROZ_BRANCO"; "FEIJÃO"; "FAROFA"; "MAÇÃ"; "ÓLEO_DE_SOJA"].

Definition costs : gmap string Q :=
  py_dict [ ("FRANGO", 0.1649%Q); ("ARROZ_BRANCO", 0.048%Q); ("FEIJÃO", 0.0625%Q);
            ("FAROFA", 0.178%Q); ("MAÇÃ", 0.845%Q); ("ÓLEO_DE_SOJA", 0.111%Q) ].

Definition calorieAmount : gmap string Q :=
  py_dict [ ("FRANGO", 17.3%Q); ("ARROZ_BRANCO", 35.812%Q); ("FEIJÃO", 32.903%Q);
            ("FAROFA", 40.6%Q); ("MAÇÃ", 81.289%Q); ("ÓLEO_DE_SOJA", 88.4%Q) ].

Definition proteinAmount : gmap string Q :=
  py_dict [ ("FRANGO", 3.091%Q); ("ARROZ_BRANCO", 0.724%Q); ("FEIJÃO", 1.998%Q);
            ("FAROFA", 0.21%Q); ("MAÇÃ", 0.299%Q); ("ÓLEO_DE_SOJA", 0%Q) ].

Definition fatAmount : gmap string Q :=
  py_dict [ ("FRANGO", 0.451%Q); ("ARROZ_BRANCO", 0.028%Q); ("FEIJÃO", 0.126%Q);
            ("FAROFA", 0.91%Q); ("MAÇÃ", 0.325%Q); ("ÓLEO_DE_SOJA", 10%Q) ].

Definition carbohydrateAmount : gmap string Q :=
  py_dict [ ("FRANGO", 0%Q); ("ARROZ_BRANCO", 7.888%Q); ("FEIJÃO", 6.122%Q);
            ("FAROFA", 8.03%Q); ("MAÇÃ", 21.567%Q); ("ÓLEO_DE_SOJA", 0%Q) ].

Definition saltAmount : gmap string Q :=
  py_dict [ ("FRANGO", 7.7%Q); ("ARROZ_BRANCO", 0.057%Q); ("FEIJÃO", 0%Q);
            ("FAROFA", 575%Q); ("MAÇÃ", 17.16%Q); ("ÓLEO_DE_SOJA", 0%Q) ].

(** ** The script: declaring the model (lines 77 to 144) *)

(** The module's names once the model is declared. *)
Record Globals : Type := mkGlobals {
  g_problem : LpProblem;
  g_ingredient_vars : gmap string LpVariable;
  g_apple : LpVariable;
  g_frango : LpVariable;
  g_feijao : LpVariable;
  g_arroz : LpVariable;
  g_farofa : LpVariable
}.

(** [lpSum([table[i] * ingredient_vars[i] for i in Ingredients])] *)
Definition total (table : gmap string Q) (ingredient_vars : gmap string LpVariable)
  : result LpAffineExpression :=
  es ← products table ingredient_vars Ingredients; mret (lpSum es).

Definition declare : Py Globals :=
  let problem := LpProblem_new "The Meal Problem" LpMinimize in
  ingredient_vars ← LpVariable_dicts "Ingr" Ingredients (Some 0%Q) None LpInteger;
  apple ← LpVariable_new "Ingr_MAÇÃ" (Some 1%Q) (Some 1%Q) LpInteger;
  let ingredient_vars := <["MAÇÃ" := apple]> ingredient_vars in
  frango ← LpVariable_new "Ingr_FRANGO" (Some 3%Q) None LpInteger;
  let ingredient_vars := <["FRANGO" := frango]> ingredient_vars in
  feijao ← LpVariable_new "Ingr_FEIJÃO" (Some 4%Q) None LpInteger;
  let ingredient_vars := <["FEIJÃO" := feijao]> ingredient_vars in
  arroz ← LpVariable_new "Ingr_ARROZ" (Some 1%Q) None LpInteger;
  let ingredient_vars := <["ARROZ" := arroz]> ingredient_vars in
  farofa ← LpVariable_new "Ingr_FAROFA" (Some 1%Q) None LpInteger;
  let ingredient_vars := <["FAROFA" := farofa]> ingredient_vars in
  lift (
    e ← total costs ingredient_vars;
    let problem := set_objective problem e "Total Cost of Ingredients per meal" in
    e ← total calorieAmount ingredient_vars;
    problem ← addConstraint problem (expr_ge e 700) "CalorieRequirement";
    e ← total proteinAmount ingredient_vars;
    problem ← addConstraint problem (expr_ge e 18.0) "MinProteinRequirement";
    e ← total proteinAmount ingredient_vars;
    problem ← addConstraint problem (expr_le e 27.0) "MaxProteinRequirement";
    e ← total fatAmount ingredient_vars;
    problem ← addConstraint problem (expr_ge e 12.0) "MinFatRequirement";
    e ← total fatAmount ingredient_vars;
    problem ← addConstraint problem (expr_le e 24.0) "MaxFatRequirement";
    e ← total carbohydrateAmount ingredient_vars;
    problem ← addConstraint problem (expr_ge e 98.0) "MinCarbohydrateRequirement";
    e ← total carbohydrateAmount ingredient_vars;
    problem ← addConstraint problem (expr_le e 116.0) "MaxCarbohydrateRequirement";
    e ← total saltAmount ingredient_vars;
    problem ← addConstraint problem (expr_le e 800) "SaltRequirement";
    mret (mkGlobals problem ingredient_vars apple frango feijao arroz farofa)).

(** ** The script: solving and reporting (lines 150 to 186) *)

(** What is printed, one constructor per kind of line.  A line holds the
    value that its statement prints, not the characters that Python renders
    it with: [PrintAmount] holds the number that the format [.2f] is given. *)
Inductive Output : Type :=
  | PrintStatus (label : string)
  | PrintVariable (nm : string) (v : option Q)
  | PrintAmount (what : string) (amount : Q).

(** [f"{x:.2f}"] needs a number: with [None] it raises TypeError.  The
    result is the number that is rendered; its rendering with two decimals
    is not embedded. *)
Definition format_2f (x : option Q) : result Q :=
  match x with
  | Some q => Ok q
  | None => Raise (TypeError "unsupported format string passed to NoneType.__format__")
  end.

(** Statements run in order; an exception ends the run and keeps what was
    printed before it. *)
Fixpoint run_steps (steps : list (result (list Output))) : list Output * option PyError :=
  match steps with
  | [] => ([], None)
  | Ok out :: rest => let '(o, e) := run_steps rest in (out ++ o, e)
  | Raise e :: _ => ([], Some e)
  end.

Definition print_status (status : Z) : result (list Output) :=
  match LpStatus !! status with
  | Some label => Ok [PrintStatus label]
  | None => Raise (KeyError "problem.status")
  end.

Definition print_variables (p : LpProblem) (st : Store) : result (list Output) :=
  Ok (map (fun v => PrintVariable (name v) (varValue st v)) (variables p)).

Definition print_cost (p : LpProblem) (st : Store) : result (list Output) :=
  match objective p with
  | Some (_, e) => x ← format_2f (value st e); mret [PrintAmount "Total Cost per meal" x]
  | None => Raise (TypeError "value of None")
  end.

Definition print_total (what : string) (table : gmap string Q)
    (ingredient_vars : gmap string LpVariable) (st : Store) : result (list Output) :=
  e ← total table ingredient_vars;
  x ← format_2f (value st e);
  mret [PrintAmount what x].

Definition report (g : Globals) (status : Z) (st : Store) : list Output * option PyError :=
  run_steps
    [ print_status status;
      print_variables (g_problem g) st;
      print_cost (g_problem g) st;
      print_total "Total calories" calorieAmount (g_ingredient_vars g) st;
      print_total "Total protein" proteinAmount (g_ingredient_vars g) st;
      print_total "Total fat" fatAmount (g_ingredient_vars g) st;
      print_total "Total carbohydrate" carbohydrateAmount (g_ingredient_vars g) st;
      print_total "Total salt" saltAmount (g_ingredient_vars g) st ].

(** The whole script.  [problem.solve()] hands the problem to an external
    solver, which leaves a status code and the [varValue] of the problem's
    variables; it is the parameter [solve]. *)
Definition main (solve : LpProblem -> Z * Store) : list Output * option PyError :=
  match declare [] with
  | Raise e => ([], Some e)
  | Ok (g, _) =>
      match writeLP (g_problem g) with
      | Raise e => ([], Some e)
      | Ok _ => let '(status, st) := solve (g_problem g) in report g status st
      end
  end.

(** ** The declared model *)

Definition no_variable : LpVariable := mkLpVariable 0 "" None None LpContinuous.
Definition no_globals : Globals :=
  mkGlobals (LpProblem_new "" LpMinimize) ∅
            no_variable no_variable no_variable no_variable no_variable.

Definition globals : Globals :=
  match declare [] with Ok (g, _) => g | Raise _ => no_globals end.

(** Every [LpVariable] object made by the script, in the order of creation. *)
Definition objects : list LpVariable :=
  match declare [] with Ok (_, heap) => heap | Raise _ => [] end.

Definition problem : LpProblem := g_problem globals.
Definition ingredient_vars : gmap string LpVariable := g_ingredient_vars globals.
Definition apple : LpVariable := g_apple globals.
Definition frango : LpVariable := g_frango globals.
Definition feijao : LpVariable := g_feijao globals.
Definition arroz : LpVariable := g_arroz globals.
Definition farofa : LpVariable := g_farofa globals.

(** ** Feasible assignments *)

Definition integral (x : Q) : Prop := exists z : Z, (x == inject_Z z)%Q.

Definition above_low (v : LpVariable) (x : Q) : Prop :=
  match lowBound v with Some l => (l <= x)%Q | None => True end.

Definition below_up (v : LpVariable) (x : Q) : Prop :=
  match upBound v with Some u => (x <= u)%Q | None => True end.

Definition var_feasible (st : Store) (v : LpVariable) : Prop :=
  exists x, varValue st v = Some x /\ above_low v x /\ below_up v x /\
            (cat v = LpInteger -> integral x).

(** The relation a constraint sense stands for. *)
Definition holds (sns : Z) (x k : Q) : Prop :=
  if Z.eqb sns LpConstraintLE then (x <= k)%Q
  else if Z.eqb sns LpConstraintEQ then (x == k)%Q
  else if Z.eqb sns LpConstraintGE then (k <= x)%Q
  else False.

Definition satisfies (st : Store) (c : LpConstraint) : Prop :=
  exists x, value st (lhs c) = Some x /\ holds (sense c) x (rhs c).

Definition feasible (st : Store) (p : LpProblem) : Prop :=
  Forall (var_feasible st) (variables p) /\
  Forall (fun nc => satisfies st nc.2) (constraints p).

(** The same, as a test. *)
Definition integralb (x : Q) : bool := Qeq_bool x (inject_Z (Qfloor x)).

Definition var_feasibleb (st : Store) (v : LpVariable) : bool :=
  match varValue st v with
  | None => false
  | Some x =>
      match lowBound v with Some l => Qle_bool l x | None => true end &&
      match upBound v with Some u => Qle_bool x u | None => true end &&
      match cat v with LpInteger => integralb x | _ => true end
  end.

Definition holdsb (sns : Z) (x k : Q) : bool :=
  if Z.eqb sns LpConstraintLE then Qle_bool x k
  else if Z.eqb sns LpConstraintEQ then Qeq_bool x k
  else if Z.eqb sns LpConstraintGE then Qle_bool k x
  else false.

Definition satisfiesb (st : Store) (c : LpConstraint) : bool :=
  match value st (lhs c) with
  | Some x => holdsb (sense c) x (rhs c)
  | None => false
  end.

Definition feasibleb (st : Store) (p : LpProblem) : bool :=
  forallb (var_feasibleb st) (variables p) &&
  forallb (fun nc => satisfiesb st nc.2) (constraints p).

(** A meal: 3 servings of chicken, 7 of rice, 4 of beans, 1 of farofa, 1 apple
    and 2 of oil, as the values of the six objects of the model. *)
Definition a_meal : Store :=
  list_to_map [ (vid frango, 3%Q); (1%nat, 7%Q); (vid feijao, 4%Q);
                (vid farofa, 1%Q); (vid apple, 1%Q); (5%nat, 2%Q) ].

(** * The solving core of the specification

    The script delegates solving to an external package, which is not part of
    the repository.  The core below follows the specification: its data model
    (section 3), the Model Builder (4.4) and the Branch-and-Bound Driver
    (4.3), over any LP relaxation solver (4.2). *)

Module Core.

(** Modelled from the spec: the data model of section 3.  A linear expression
    is the list of its coefficients, one per variable, in the order of the
    model's variables. *)
Inductive Integrality : Type := continuous | integer.

Record ModelVariable : Type := mkVariable {
  identifier : string;
  lowerBound : option Q;   (* [None]: minus infinity *)
  upperBound : option Q;   (* [None]: plus infinity *)
  integrality : Integrality
}.

Inductive Operator : Type := Le | Eq | Ge.

Record ModelConstraint : Type := mkCoreConstraint {
  coefficients : list Q;
  operator : Operator;
  bound : Q
}.

Inductive Sense : Type := minimize | maximize.

Record Model : Type := mkModel {
  m_variables : list ModelVariable;
  m_sense : Sense;
  m_objective : list Q;
  m_constraints : list ModelConstraint
}.

(** Modelled from the spec: a Solution.  The objective value and the
    assignment are present exactly for the statuses that carry them. *)
Inductive Solution : Type :=
  | Optimal (objective_value : Q) (assignment : list Q)
  | Infeasible
  | Unbounded
  | Suboptimal (objective_value : Q) (assignment : list Q).

Inductive Status : Type := optimal | infeasible | unbounded | suboptimal.

Definition status (s : Solution) : Status :=
  match s with
  | Optimal _ _ => optimal
  | Infeasible => infeasible
  | Unbounded => unbounded
  | Suboptimal _ _ => suboptimal
  end.

(** Modelled from the spec: the tolerance of every comparison. *)
Definition eps : Q := 1 # 1000000000.

Fixpoint dot (cs xs : list Q) : Q :=
  match cs, xs with
  | c :: cs', x :: xs' => (c * x + dot cs' xs')%Q
  | _, _ => 0%Q
  end.

(** ** Model Builder *)

Inductive BuildError : Type :=
  | DuplicateVariable (nm : string)
  | UnknownVariable (nm : string).

(** Modelled from the spec: the Model Builder accumulates variables and
    rejects a name that is registered already. *)
Definition add_variable (vs : list ModelVariable) (v : ModelVariable)
  : BuildError + list ModelVariable :=
  if existsb (fun w => String.eqb (identifier w) (identifier v)) vs
  then inl (DuplicateVariable (identifier v))
  else inr (vs ++ [v]).

Fixpoint add_variables (vs : list ModelVariable) (new : list ModelVariable)
  : BuildError + list ModelVariable :=
  match new with
  | [] => inr vs
  | v :: rest =>
      match add_variable vs v with
      | inl e => inl e
      | inr vs' => add_variables vs' rest
      end
  end.

(** Modelled from the spec: an expression may mention registered variables
    only; its row has the coefficient of each registered variable. *)
Definition coefficient_of (nm : string) (ts : list (string * Q)) : Q :=
  fold_left (fun s t => if String.eqb t.1 nm then (s + t.2)%Q else s) ts 0%Q.

Definition row (vs : list ModelVariable) (ts : list (string * Q)) : BuildError + list Q :=
  match filter (fun t => forallb (fun v => negb (String.eqb (identifier v) t.1)) vs) ts with
  | t :: _ => inl (UnknownVariable t.1)
  | [] => inr (map (fun v => coefficient_of (identifier v) ts) vs)
  end.

Fixpoint rows (vs : list ModelVariable) (cs : list (list (string * Q) * Operator * Q))
  : BuildError + list ModelConstraint :=
  match cs with
  | [] => inr []
  | (ts, op, b) :: rest =>
      match row vs ts, rows vs rest with
      | inl e, _ => inl e
      | _, inl e => inl e
      | inr r, inr rs => inr (mkCoreConstraint r op b :: rs)
      end
  end.

(** Modelled from the spec: the finished Model, or the first error. *)
Definition build (new : list ModelVariable) (sns : Sense) (obj : list (string * Q))
    (cs : list (list (string * Q) * Operator * Q)) : BuildError + Model :=
  match add_variables [] new with
  | inl e => inl e
  | inr vs =>
      match row vs obj, rows vs cs with
      | inl e, _ => inl e
      | _, inl e => inl e
      | inr o, inr rs => inr (mkModel vs sns o rs)
      end
  end.

(** ** Branch-and-Bound Driver *)

(** Modelled from the spec: what a call of the LP relaxation solver yields,
    the Solution of the relaxed model or a NumericDegeneracy failure. *)
Inductive Relaxation : Type :=
  | LpOptimal (objective_value : Q) (values : list Q)
  | LpInfeasible
  | LpUnbounded
  | NumericDegeneracy.

(** Modelled from the spec: a SearchNode, a Model variant with tightened
    bounds together with the relaxation bound of its parent. *)
Record SearchNode : Type := mkNode {
  node_model : Model;
  parent_bound : option Q
}.

Definition nearest (x : Q) : Z := Qfloor (x + (1 # 2))%Q.

(** Modelled from the spec: a value is integral when it is within the
    tolerance of the nearest integer. *)
Definition near_integer (x : Q) : bool :=
  Qle_bool (Qabs (x - inject_Z (nearest x))%Q) eps.

(** Modelled from the spec: the test of a candidate, every integer-flagged
    variable has a value and it is integral. *)
Fixpoint all_integral (vs : list ModelVariable) (xs : list Q) : bool :=
  match vs with
  | [] => true
  | v :: vs' =>
      match integrality v with
      | continuous => all_integral vs' (tail xs)
      | integer =>
          match xs with
          | x :: _ => near_integer x && all_integral vs' (tail xs)
          | [] => false
          end
      end
  end.

(** distance of the fractional part to one half *)
Definition off_half (x : Q) : Q := Qabs (x - inject_Z (Qfloor x) - (1 # 2))%Q.

(** Modelled from the spec: the branching variable is the integer-flagged
    variable with a fractional value that is most fractional, the lowest
    index winning a tie.  [j] is the index of the head of [vs]. *)
Fixpoint most_fractional (j : nat) (vs : list ModelVariable) (xs : list Q)
    (best : option (nat * Q)) : option (nat * Q) :=
  match vs, xs with
  | v :: vs', x :: xs' =>
      let best' :=
        match integrality v with
        | continuous => best
        | integer =>
            if near_integer x then best
            else match best with
                 | None => Some (j, x)
                 | Some (_, y) =>
                     if Qle_bool (off_half y) (off_half x) then best else Some (j, x)
                 end
        end in
      most_fractional (S j) vs' xs' best'
  | _, _ => best
  end.

(** Modelled from the spec: a child node tightens one bound of one variable. *)
Definition set_upper (u : Q) (v : ModelVariable) : ModelVariable :=
  mkVariable (identifier v) (lowerBound v) (Some u) (integrality v).

Definition set_lower (l : Q) (v : ModelVariable) : ModelVariable :=
  mkVariable (identifier v) (Some l) (upperBound v) (integrality v).

Definition tighten (j : nat) (f : ModelVariable -> ModelVariable) (m : Model) : Model :=
  mkModel (alter f j (m_variables m)) (m_sense m) (m_objective m) (m_constraints m).

(** Modelled from the spec: pruning, the relaxation objective [z] is no
    better than the objective of the incumbent.  The specification words it
    for minimization; maximization is its mirror image. *)
Definition dominated (sns : Sense) (z : Q) (incumbent : option (Q * list Q)) : bool :=
  match incumbent with
  | None => false
  | Some (best, _) =>
      match sns with
      | minimize => Qle_bool best z
      | maximize => Qle_bool z best
      end
  end.

Section Driver.

Variable solveRelaxation : Model -> Relaxation.

(** Modelled from the spec: the loop of section 4.3, depth first with
    pruning by the incumbent.  [budget] is the node-count limit, checked once
    per iteration; [warnings] counts the nodes discarded for numeric
    degeneracy.  The specification does not say what the driver does when a
    relaxation is unbounded: the search ends with status unbounded. *)
Fixpoint search (budget : nat) (frontier : list SearchNode)
    (incumbent : option (Q * list Q)) (warnings : nat) : Solution * nat :=
  match frontier with
  | [] =>
      (match incumbent with Some (z, x) => Optimal z x | None => Infeasible end,
       warnings)
  | node :: frontier' =>
      match budget with
      | O =>
          (match incumbent with Some (z, x) => Suboptimal z x | None => Infeasible end,
           warnings)
      | S budget' =>
          let m := node_model node in
          match solveRelaxation m with
          | LpInfeasible => search budget' frontier' incumbent warnings
          | NumericDegeneracy => search budget' frontier' incumbent (S warnings)
          | LpUnbounded => (Unbounded, warnings)
          | LpOptimal z x =>
              if dominated (m_sense m) z incumbent
              then search budget' frontier' incumbent warnings
              else if all_integral (m_variables m) x
              then search budget' frontier' (Some (z, x)) warnings
              else
                match most_fractional 0 (m_variables m) x None with
                | None => search budget' frontier' incumbent warnings
                | Some (j, v) =>
                    let down := mkNode (tighten j (set_upper (inject_Z (Qfloor v))) m) (Some z) in
                    let up := mkNode (tighten j (set_lower (inject_Z (Qceiling v))) m) (Some z) in
                    search budget' (up :: down :: frontier') incumbent warnings
                end
          end
      end
  end.

(** Modelled from the spec: [solve(Model)], the search from the root node
    with no incumbent. *)
Definition solve (budget : nat) (m : Model) : Solution :=
  (search budget [mkNode m None] None 0).1.

End Driver.

End Core.

(** ** The declared model, handed to the core *)

Definition core_variable (v : LpVariable) : Core.ModelVariable :=
  Core.mkVariable (name v) (lowBound v) (upBound v)
    (match cat v with LpContinuous => Core.continuous | _ => Core.integer end).

Definition core_terms (e : LpAffineExpression) : list (string * Q) :=
  map (fun t => (name t.1, t.2)) (terms e).

Definition core_operator (sns : Z) : Core.Operator :=
  if Z.eqb sns LpConstraintLE then Core.Le
  else if Z.eqb sns LpConstraintGE then Core.Ge
  else Core.Eq.

Definition core_sense (sns : Z) : Core.Sense :=
  if Z.eqb sns LpMaximize then Core.maximize else Core.minimize.

Definition core_model (p : LpProblem) : Core.BuildError + Core.Model :=
  Core.build
    (map core_variable (variables p))
    (core_sense (psense p))
    (match objective p with Some (_, e) => core_terms e | None => [] end)
    (map (fun nc => (core_terms (lhs nc.2), core_operator (sense nc.2), rhs nc.2))
         (constraints p)).

Definition meal_model : Core.Model :=
  match core_model problem with
  | inr m => m
  | inl _ => Core.mkModel [] Core.minimize [] []
  end.

(** A relaxation solver that knows one point: it answers with that point
    where the point is within the bounds and satisfies the constraints, and
    with infeasible elsewhere. *)
Definition within_bounds (vs : list Core.ModelVariable) (xs : list Q) : bool :=
  Nat.eqb (length vs) (length xs) &&
  forallb (fun vx : Core.ModelVariable * Q =>
             match Core.lowerBound vx.1 with Some l => Qle_bool l vx.2 | None => true end &&
             match Core.upperBound vx.1 with Some u => Qle_bool vx.2 u | None => true end)
          (zip vs xs).

Definition satb (xs : list Q) (c : Core.ModelConstraint) : bool :=
  match Core.operator c with
  | Core.Le => Qle_bool (Core.dot (Core.coefficients c) xs) (Core.bound c)
  | Core.Eq => Qeq_bool (Core.dot (Core.coefficients c) xs) (Core.bound c)
  | Core.Ge => Qle_bool (Core.bound c) (Core.dot (Core.coefficients c) xs)
  end.

Definition one_point (xs : list Q) (m : Core.Model) : Core.Relaxation :=
  if within_bounds (Core.m_variables m) xs && forallb (satb xs) (Core.m_constraints m)
  then Core.LpOptimal (Core.dot (Core.m_objective m) xs) xs
  else Core.LpInfeasible.

(** A node is a variant of the root: the same variables up to their bounds,
    and the same constraints. *)
Definition variant (root m : Core.Model) : Prop :=
  map Core.integrality (Core.m_variables m) = map Core.integrality (Core.m_variables root) /\
  Core.m_constraints m = Core.m_constraints root.

(** The objective value and the assignment that a Solution carries. *)
Definition carried (s : Core.Solution) : option (Q * list Q) :=
  match s with
  | Core.Optimal z x | Core.Suboptimal z x => Some (z, x)
  | Core.Infeasible | Core.Unbounded => None
  end.

(** The meal [a_meal] as an assignment of the core, in the order of the
    problem's variables. *)
Definition known_meal : list Q := [7; 1; 4; 3; 1; 2]%Q.

(** ** Notions of the properties *)

(** [ingredient_vars[i]] *)
Definition var_of (i : string) : LpVariable := default no_variable (ingredient_vars !! i).

(** What a feasible assignment gives: a value for each of the six variables
    of the model, integral and within the bounds, and the eight inequalities. *)
Record meal (st : Store) (r fa fe fr ma ol : Q) : Prop := mkMeal {
  meal_rice : varValue st (var_of "ARROZ_BRANCO") = Some r;
  meal_farofa : varValue st farofa = Some fa;
  meal_beans : varValue st feijao = Some fe;
  meal_chicken : varValue st frango = Some fr;
  meal_apple : varValue st apple = Some ma;
  meal_oil : varValue st (var_of "ÓLEO_DE_SOJA") = Some ol;
  meal_integral :
    integral r /\ integral fa /\ integral fe /\ integral fr /\ integral ma /\ integral ol;
  meal_bounds : (0 <= r /\ 1 <= fa /\ 4 <= fe /\ 3 <= fr /\ 1 <= ma /\ ma <= 1 /\ 0 <= ol)%Q;
  meal_calories :
    (700 <= 17.3 * fr + 35.812 * r + 32.903 * fe + 40.6 * fa + 81.289 * ma + 88.4 * ol)%Q;
  meal_protein :
    (18 <= 3.091 * fr + 0.724 * r + 1.998 * fe + 0.21 * fa + 0.299 * ma <= 27)%Q;
  meal_fat :
    (12 <= 0.451 * fr + 0.028 * r + 0.126 * fe + 0.91 * fa + 0.325 * ma + 10 * ol <= 24)%Q;
  meal_carbohydrate :
    (98 <= 7.888 * r + 6.122 * fe + 8.03 * fa + 21.567 * ma <= 116)%Q;
  meal_salt :
    (7.7 * fr + 0.057 * r + 575 * fa + 17.16 * ma <= 800)%Q
}.

(** The lower bound of the variable that the model uses for an ingredient. *)
Definition declared_low (i : string) : option Q :=
  v ← ingredient_vars !! i; lowBound v.

(** The expression of the objective. *)
Definition cost_expr : LpAffineExpression :=
  match objective problem with Some (_, e) => e | None => empty_expr end.

(** Every variable of the problem has a value at or above its lower bound. *)
Definition respects_low (st : Store) (p : LpProblem) : Prop :=
  Forall (fun v => exists x, varValue st v = Some x /\ above_low v x) (variables p).

(** The objects made by [LpVariable.dicts], before any replacement. *)
Definition dicts_objects : list LpVariable := take 6 objects.

(** A run in which the solver returns the status [status] and leaves the
    values [st] in the variables. *)
Definition returning (status : Z) (st : Store) : LpProblem -> Z * Store :=
  fun _ => (status, st).

(** The report printed the value of a variable, or of the objective. *)
Definition reads_assignment (out : list Output) : Prop :=
  exists nm x, In (PrintVariable nm (Some x)) out.

Definition reads_objective (out : list Output) : Prop :=
  exists x, In (PrintAmount "Total Cost per meal" x) out.

(** The ingredients whose entry in a table is not zero, in the order of
    [Ingredients]. *)
Definition nonzero_entries (table : gmap string Q) : list string :=
  List.filter (fun i => match table !! i with
                        | Some k => negb (Qeq_bool k 0)
                        | None => false
                        end)
              Ingredients.

(** ** Notions of the further properties *)

(** The count that the dict of [checkDuplicateVars] holds for a name, 0 when
    the name is no key. *)
Fixpoint count_of (nm : string) (counts : list (string * nat)) : nat :=
  match counts with
  | [] => 0
  | (k, n) :: rest => if String.eqb k nm then n else count_of nm rest
  end.

(** Every variable of the terms has a value. *)
Definition defined (st : Store) (ts : list (LpVariable * Q)) : Prop :=
  Forall (fun t => is_Some (varValue st t.1)) ts.

(** Every variable that the objective and the constraints mention. *)
Definition mentioned (p : LpProblem) : list LpVariable :=
  match objective p with Some (_, e) => expr_vars e | None => [] end
  ++ concat (map (fun nc => expr_vars (lhs nc.2)) (constraints p)).

(** [w] does not come before [v] in the order of names. *)
Definition name_le (v w : LpVariable) : Prop := String.ltb (name w) (name v) = false.

(** The store gives the variable [v] the integer [z]. *)
Definition serves (st : Store) (v : LpVariable) (z : Z) : Prop :=
  exists x, varValue st v = Some x /\ (x == inject_Z z)%Q.

(** The servings that a store gives to the ingredients, in the order of
    [Ingredients]. *)
Definition plate (st : Store) (zs : list Z) : Prop :=
  Forall2 (fun i z => serves st (var_of i) z) Ingredients zs.

(** Nine meals, as servings of chicken, rice, beans, farofa, apple and oil. *)
Definition feasible_meals : list (list Z) :=
  [ [3; 7; 4; 1; 1; 2]; [3; 6; 5; 1; 1; 2]; [3; 5; 6; 1; 1; 2];
    [3; 4; 7; 1; 1; 2]; [3; 7; 5; 1; 1; 2]; [3; 6; 6; 1; 1; 2];
    [4; 6; 4; 1; 1; 2]; [4; 5; 5; 1; 1; 2]; [4; 7; 4; 1; 1; 2] ]%Z.

(** The bounds and the eight inequalities of the model over integral
    servings, in thousandths. *)
Definition servings (zfr zr zfe zfa zma zol : Z) : Prop :=
  (3 <= zfr /\ 0 <= zr /\ 4 <= zfe /\ 1 <= zfa /\ 1 <= zma <= 1 /\ 0 <= zol /\
   700000 <= 17300 * zfr + 35812 * zr + 32903 * zfe + 40600 * zfa + 81289 * zma + 88400 * zol /\
   18000 <= 3091 * zfr + 724 * zr + 1998 * zfe + 210 * zfa + 299 * zma <= 27000 /\
   12000 <= 451 * zfr + 28 * zr + 126 * zfe + 910 * zfa + 325 * zma + 10000 * zol <= 24000 /\
   98000 <= 7888 * zr + 6122 * zfe + 8030 * zfa + 21567 * zma <= 116000 /\
   7700 * zfr + 57 * zr + 575000 * zfa + 17160 * zma <= 800000)%Z.

(** [lpSum([table[i] * ingredient_vars[i] for i in Ingredients])] of the
    declared model. *)
Definition nutrient_expr (table : gmap string Q) : LpAffineExpression :=
  match total table ingredient_vars with Ok e => e | Raise _ => empty_expr end.

(** What a correct solver leaves in the variables: a feasible assignment
    that no feasible assignment undercuts. *)
Definition optimal_for (st : Store) : Prop :=
  feasible st problem /\
  forall st' s s', feasible st' problem ->
    value st cost_expr = Some s -> value st' cost_expr = Some s' -> (s <= s')%Q.

(** * Properties *)

(** ** The declaration runs *)

Lemma declare_ok : declare [] = Ok (globals, objects).
Proof. vm_compute. reflexivity. Qed.

Lemma problem_variables :
  variables problem =
  [var_of "ARROZ_BRANCO"; farofa; feijao; frango; apple; var_of "ÓLEO_DE_SOJA"].
Proof. vm_compute. reflexivity. Qed.

Ltac normal_in H x :=
  let v := eval vm_compute in x in change x with v in H.

Ltac split_forall :=
  repeat match goal with
         | H : Forall _ (_ :: _) |- _ => apply Forall_cons in H; destruct H as [? H]
         end.

Ltac take_variable Hv x :=
  let E := fresh "E" x in
  let L := fresh "L" x in
  let U := fresh "U" x in
  let I := fresh "I" x in
  apply Forall_cons in Hv; destruct Hv as [(x & E & L & U & I) Hv];
  specialize (I eq_refl);
  match type of E with
  | varValue _ ?v = _ => normal_in E v
  end.

Ltac take_constraint Hc :=
  let y := fresh "y" in
  let E := fresh "Ey" in
  let H := fresh "Hy" in
  apply Forall_cons in Hc; destruct Hc as [(y & E & H) Hc];
  cbn [lhs sense rhs snd value terms constant value_from] in E, H;
  repeat match goal with
         | Ev : varValue ?st ?v = Some _ |- _ =>
             match type of E with context [varValue st v] => rewrite Ev in E end
         end;
  injection E as <-;
  cbn -[Qle Qeq Qplus Qmult] in H.

Lemma feasible_meal (st : Store) :
  feasible st problem -> exists r fa fe fr ma ol : Q, meal st r fa fe fr ma ol.
Proof.
  intros [Hv Hc]. rewrite problem_variables in Hv.
  take_variable Hv r. take_variable Hv fa. take_variable Hv fe.
  take_variable Hv fr. take_variable Hv ma. take_variable Hv ol.
  normal_in Hc (constraints problem).
  do 8 take_constraint Hc.
  exists r, fa, fe, fr, ma, ol.
  constructor; try assumption.
  - repeat split; assumption.
  - repeat split; [exact Lr | exact Lfa | exact Lfe | exact Lfr | exact Lma | exact Uma | exact Lol].
  - lra.
  - lra.
  - lra.
  - lra.
  - lra.
Qed.

(** ** The tests agree with the relations *)

Lemma integralb_sound (x : Q) : integralb x = true -> integral x.
Proof. intros H. exists (Qfloor x). apply Qeq_bool_iff. exact H. Qed.

Lemma var_feasibleb_sound (st : Store) (v : LpVariable) :
  var_feasibleb st v = true -> var_feasible st v.
Proof.
  unfold var_feasibleb, var_feasible, above_low, below_up.
  destruct (varValue st v) as [x|]; [|discriminate].
  intros H. apply andb_prop in H as [H Hi]. apply andb_prop in H as [Hl Hu].
  exists x. repeat split.
  - destruct (lowBound v); [apply Qle_bool_iff; exact Hl | exact I].
  - destruct (upBound v); [apply Qle_bool_iff; exact Hu | exact I].
  - intros Hc. rewrite Hc in Hi. apply integralb_sound. exact Hi.
Qed.

Lemma holdsb_sound (sns : Z) (x k : Q) : holdsb sns x k = true -> holds sns x k.
Proof.
  unfold holdsb, holds.
  destruct (Z.eqb sns LpConstraintLE); [apply Qle_bool_iff|].
  destruct (Z.eqb sns LpConstraintEQ); [apply Qeq_bool_iff|].
  destruct (Z.eqb sns LpConstraintGE); [apply Qle_bool_iff | discriminate].
Qed.

Lemma satisfiesb_sound (st : Store) (c : LpConstraint) :
  satisfiesb st c = true -> satisfies st c.
Proof.
  unfold satisfiesb, satisfies. destruct (value st (lhs c)) as [x|]; [|discriminate].
  intros H. exists x. split; [reflexivity | apply holdsb_sound; exact H].
Qed.

Lemma feasibleb_sound (st : Store) (p : LpProblem) :
  feasibleb st p = true -> feasible st p.
Proof.
  unfold feasibleb, feasible. intros H. apply andb_prop in H as [Hv Hc]. split.
  - apply Forall_forall. intros v Hin. apply var_feasibleb_sound.
    rewrite forallb_forall in Hv. apply Hv. apply list_elem_of_In. exact Hin.
  - apply Forall_forall. intros c Hin. apply satisfiesb_sound.
    rewrite forallb_forall in Hc. apply Hc. apply list_elem_of_In. exact Hin.
Qed.

Lemma a_meal_feasible : feasible a_meal problem.
Proof. apply feasibleb_sound. vm_compute. reflexivity. Qed.

(** An integral value between [n] and [n + 1], the latter excluded, is [n]. *)
Lemma integral_pinned (x : Q) (n : Z) :
  integral x -> (inject_Z n <= x)%Q -> (x < inject_Z (n + 1))%Q -> (x == inject_Z n)%Q.
Proof.
  intros [z Hz] Hl Hu. rewrite Hz in Hl, Hu |- *.
  rewrite <- Zle_Qle in Hl. rewrite <- Zlt_Qlt in Hu.
  replace z with n by lia. reflexivity.
Qed.

(** ** Bounds of the variables *)

(** C1.  The variables that the model uses for MAÇÃ, FRANGO, FEIJÃO and FAROFA
    carry the lower bounds 1, 3, 4 and 1.  The one it uses for ARROZ_BRANCO
    carries the lower bound 0: the variable with lower bound 1 is stored under
    the key ARROZ, which is no ingredient, and is no variable of the model. *)
Theorem arroz_branco_lower_bound_zero :
  declared_low "MAÇÃ" = Some 1%Q /\ declared_low "FRANGO" = Some 3%Q /\
  declared_low "FEIJÃO" = Some 4%Q /\ declared_low "FAROFA" = Some 1%Q /\
  declared_low "ARROZ_BRANCO" = Some 0%Q /\
  In (var_of "ARROZ_BRANCO") (variables problem) /\
  ingredient_vars !! "ARROZ" = Some arroz /\ lowBound arroz = Some 1%Q /\
  ~ In "ARROZ" Ingredients /\
  ~ In (vid arroz) (map vid (variables problem)).
Proof.
  do 5 (split; [vm_compute; reflexivity|]).
  split; [rewrite problem_variables; left; reflexivity|].
  do 2 (split; [vm_compute; reflexivity|]).
  split; vm_compute; intuition discriminate.
Qed.

(** Rice is on the plate all the same: the carbohydrate and protein bounds
    leave no feasible meal without it. *)
Lemma rice_forced (st : Store) (r fa fe fr ma ol : Q) :
  meal st r fa fe fr ma ol -> (1 <= r)%Q.
Proof. intros [ ]. lra. Qed.

(** C8.  The apple variable has lower and upper bound 1, and every feasible
    assignment gives it the value 1. *)
Theorem apple_fixed_at_one (st : Store) :
  feasible st problem ->
  ingredient_vars !! "MAÇÃ" = Some apple /\
  lowBound apple = Some 1%Q /\ upBound apple = Some 1%Q /\
  exists x, varValue st apple = Some x /\ (x == 1)%Q.
Proof.
  intros H. destruct (feasible_meal st H) as (r & fa & fe & fr & ma & ol & M).
  do 3 (split; [vm_compute; reflexivity|]).
  exists ma. split; [apply M|]. destruct M. lra.
Qed.

(** The meal [a_meal] is feasible, and its apple is one. *)
Lemma apple_fixed_at_one_witness :
  feasible a_meal problem /\
  exists x, varValue a_meal apple = Some x /\ (x == 1)%Q.
Proof.
  assert (H : feasible a_meal problem) by (apply feasibleb_sound; vm_compute; reflexivity).
  split; [exact H | apply (apple_fixed_at_one a_meal H)].
Defined.

(** C9.  Every feasible assignment gives FAROFA the value 1: its lower bound
    is 1, and with 575 mg of salt a serving and at most 800 mg in all, an
    integral number of servings is below 2. *)
Theorem farofa_exactly_one (st : Store) :
  feasible st problem ->
  lowBound farofa = Some 1%Q /\ saltAmount !! "FAROFA" = Some 575%Q /\
  exists x, varValue st farofa = Some x /\ (x == 1)%Q.
Proof.
  intros H. destruct (feasible_meal st H) as (r & fa & fe & fr & ma & ol & M).
  do 2 (split; [vm_compute; reflexivity|]).
  exists fa. split; [apply M|].
  destruct M as [_ _ _ _ _ _ (_ & Ifa & _) (? & ? & ? & ? & ? & ? & ?) _ _ _ _ ?].
  apply (integral_pinned fa 1 Ifa).
  - change (inject_Z 1) with 1%Q. lra.
  - change (inject_Z (1 + 1)) with 2%Q. lra.
Qed.

(** The meal [a_meal] is feasible, and its farofa is one serving. *)
Lemma farofa_exactly_one_witness :
  feasible a_meal problem /\
  exists x, varValue a_meal farofa = Some x /\ (x == 1)%Q.
Proof.
  assert (H : feasible a_meal problem) by (apply feasibleb_sound; vm_compute; reflexivity).
  split; [exact H | apply (farofa_exactly_one a_meal H)].
Defined.

(** ** The objective *)

Ltac normal_goal x :=
  let v := eval vm_compute in x in change x with v.

(** C6.  The problem minimizes, and its objective has one term per listed
    ingredient, in the order of the list: the ingredient's variable with the
    ingredient's cost as coefficient, and no constant. *)
Theorem objective_is_total_cost :
  psense problem = LpMinimize /\
  objective problem = Some ("Total_Cost_of_Ingredients_per_meal", cost_expr) /\
  total costs ingredient_vars = Ok cost_expr /\
  Forall2 (fun i t => ingredient_vars !! i = Some t.1 /\
                      exists c, costs !! i = Some c /\ (t.2 == c)%Q)
          Ingredients (terms cost_expr) /\
  (constant cost_expr == 0)%Q.
Proof.
  do 3 (split; [vm_compute; reflexivity|]).
  split; [|vm_compute; reflexivity].
  normal_goal (terms cost_expr). unfold Ingredients.
  repeat (apply List.Forall2_cons;
          [split; [vm_compute; reflexivity
                  | eexists; split; [vm_compute; reflexivity | reflexivity]]|]).
  apply List.Forall2_nil.
Qed.

(** An expression whose coefficients and constant are not negative has a
    value that is not negative where its variables have such values. *)
Lemma value_from_nonneg (st : Store) (ts : list (LpVariable * Q)) (s : Q) :
  (0 <= s)%Q ->
  Forall (fun t => (0 <= t.2)%Q /\ exists x, varValue st t.1 = Some x /\ (0 <= x)%Q) ts ->
  exists y, value_from st ts s = Some y /\ (0 <= y)%Q.
Proof.
  revert s. induction ts as [|[v k] ts IH]; intros s Hs Hts.
  - exists s. split; [reflexivity | exact Hs].
  - apply Forall_cons in Hts as [(Hk & x & Ex & Hx) Hts].
    cbn [value_from]. cbn [fst] in Ex. rewrite Ex. apply IH; [|exact Hts].
    cbn [snd] in Hk. pose proof (Qmult_le_0_compat x k Hx Hk). lra.
Qed.

(** C10.  The lower bounds of the variables and the coefficients of the
    objective are not negative, so the objective has a value that is not
    negative at every assignment that respects the lower bounds. *)
Theorem objective_nonnegative (st : Store) :
  respects_low st problem ->
  Forall (fun v => exists l, lowBound v = Some l /\ (0 <= l)%Q) (variables problem) /\
  Forall (fun t => (0 <= t.2)%Q) (terms cost_expr) /\
  exists s, value st cost_expr = Some s /\ (0 <= s)%Q.
Proof.
  intros H. unfold respects_low in H. rewrite problem_variables in H |- *.
  split; [|split].
  - repeat (apply List.Forall_cons; [eexists; split; [vm_compute; reflexivity | lra]|]).
    apply List.Forall_nil.
  - normal_goal (terms cost_expr).
    repeat (apply List.Forall_cons; [cbn [snd]; lra|]). apply List.Forall_nil.
  - apply Forall_cons in H as [(r & Er & Lr) H]. apply Forall_cons in H as [(fa & Efa & Lfa) H].
    apply Forall_cons in H as [(fe & Efe & Lfe) H]. apply Forall_cons in H as [(fr & Efr & Lfr) H].
    apply Forall_cons in H as [(ma & Ema & Lma) H]. apply Forall_cons in H as [(ol & Eol & Lol) _].
    change (0 <= r)%Q in Lr. change (1 <= fa)%Q in Lfa. change (4 <= fe)%Q in Lfe.
    change (3 <= fr)%Q in Lfr. change (1 <= ma)%Q in Lma. change (0 <= ol)%Q in Lol.
    apply value_from_nonneg; [vm_compute; discriminate|].
    normal_goal (terms cost_expr).
    repeat (apply List.Forall_cons;
            [split; [cbn [snd]; lra | eexists; split; [eassumption | lra]]|]).
    apply List.Forall_nil.
Qed.

(** The meal [a_meal] respects the lower bounds, and costs no less than 0. *)
Lemma objective_nonnegative_witness :
  respects_low a_meal problem /\
  exists s, value a_meal cost_expr = Some s /\ (0 <= s)%Q.
Proof.
  assert (H : respects_low a_meal problem).
  { unfold respects_low. rewrite problem_variables.
    repeat (apply List.Forall_cons;
            [eexists; split; [vm_compute; reflexivity | vm_compute; discriminate]|]).
    apply List.Forall_nil. }
  split; [exact H | apply (objective_nonnegative a_meal H)].
Defined.

(** ** The constraints *)

(** C7.  Every constraint of the problem has one of the three senses and a
    left-hand side whose variables are variables of the problem, made by the
    script and held by [ingredient_vars] under the name of an ingredient;
    for each nutrient table a constraint has the total of that table as its
    left-hand side.  The constraints are eight, in this order: calories at
    least 700, protein at least 18 and at most 27, fat at least 12 and at
    most 24, carbohydrate at least 98 and at most 116, salt at most 800.  The
    left-hand side of each has no constant and one term for each ingredient
    whose entry in the nutrient's table is not zero, in the order of the
    ingredients: the variable that [ingredient_vars] holds for the ingredient,
    with that entry as coefficient. *)
Theorem constraints_linear_over_registered :
  Forall (fun nc : string * LpConstraint =>
            In (sense nc.2) [LpConstraintLE; LpConstraintEQ; LpConstraintGE] /\
            Forall (fun t : LpVariable * Q =>
                      In t.1 (variables problem) /\ In t.1 objects /\
                      exists i, In i Ingredients /\ ingredient_vars !! i = Some t.1)
                   (terms (lhs nc.2)))
         (constraints problem) /\
  Forall (fun table => exists nm c, In (nm, c) (constraints problem) /\
                                    total table ingredient_vars = Ok (lhs c))
         [calorieAmount; proteinAmount; fatAmount; carbohydrateAmount; saltAmount] /\
  map (fun nc : string * LpConstraint =>
         (nc.1, map (fun t : LpVariable * Q => (name t.1, t.2)) (terms (lhs nc.2)),
          sense nc.2, rhs nc.2))
      (constraints problem) =
    [ ("CalorieRequirement",
       [ ("Ingr_FRANGO", 17.3%Q); ("Ingr_ARROZ_BRANCO", 35.812%Q); ("Ingr_FEIJÃO", 32.903%Q);
         ("Ingr_FAROFA", 40.6%Q); ("Ingr_MAÇÃ", 81.289%Q); ("Ingr_ÓLEO_DE_SOJA", 88.4%Q) ],
       LpConstraintGE, 700%Q);
      ("MinProteinRequirement",
       [ ("Ingr_FRANGO", 3.091%Q); ("Ingr_ARROZ_BRANCO", 0.724%Q); ("Ingr_FEIJÃO", 1.998%Q);
         ("Ingr_FAROFA", 0.21%Q); ("Ingr_MAÇÃ", 0.299%Q) ],
       LpConstraintGE, 18.0%Q);
      ("MaxProteinRequirement",
       [ ("Ingr_FRANGO", 3.091%Q); ("Ingr_ARROZ_BRANCO", 0.724%Q); ("Ingr_FEIJÃO", 1.998%Q);
         ("Ingr_FAROFA", 0.21%Q); ("Ingr_MAÇÃ", 0.299%Q) ],
       LpConstraintLE, 27.0%Q);
      ("MinFatRequirement",
       [ ("Ingr_FRANGO", 0.451%Q); ("Ingr_ARROZ_BRANCO", 0.028%Q); ("Ingr_FEIJÃO", 0.126%Q);
         ("Ingr_FAROFA", 0.91%Q); ("Ingr_MAÇÃ", 0.325%Q); ("Ingr_ÓLEO_DE_SOJA", 10%Q) ],
       LpConstraintGE, 12.0%Q);
      ("MaxFatRequirement",
       [ ("Ingr_FRANGO", 0.451%Q); ("Ingr_ARROZ_BRANCO", 0.028%Q); ("Ingr_FEIJÃO", 0.126%Q);
         ("Ingr_FAROFA", 0.91%Q); ("Ingr_MAÇÃ", 0.325%Q); ("Ingr_ÓLEO_DE_SOJA", 10%Q) ],
       LpConstraintLE, 24.0%Q);
      ("MinCarbohydrateRequirement",
       [ ("Ingr_ARROZ_BRANCO", 7.888%Q); ("Ingr_FEIJÃO", 6.122%Q);
         ("Ingr_FAROFA", 8.03%Q); ("Ingr_MAÇÃ", 21.567%Q) ],
       LpConstraintGE, 98.0%Q);
      ("MaxCarbohydrateRequirement",
       [ ("Ingr_ARROZ_BRANCO", 7.888%Q); ("Ingr_FEIJÃO", 6.122%Q);
         ("Ingr_FAROFA", 8.03%Q); ("Ingr_MAÇÃ", 21.567%Q) ],
       LpConstraintLE, 116.0%Q);
      ("SaltRequirement",
       [ ("Ingr_FRANGO", 7.7%Q); ("Ingr_ARROZ_BRANCO", 0.057%Q);
         ("Ingr_FAROFA", 575%Q); ("Ingr_MAÇÃ", 17.16%Q) ],
       LpConstraintLE, 800%Q) ] /\
  Forall2 (fun (nc : string * LpConstraint) (table : gmap string Q) =>
             Forall2 (fun (t : LpVariable * Q) (i : string) =>
                        ingredient_vars !! i = Some t.1 /\
                        exists k, table !! i = Some k /\ (t.2 == k)%Q)
                     (terms (lhs nc.2)) (nonzero_entries table) /\
             (constant (lhs nc.2) == 0)%Q)
          (constraints problem)
          [ calorieAmount; proteinAmount; proteinAmount; fatAmount; fatAmount;
            carbohydrateAmount; carbohydrateAmount; saltAmount ].
Proof.
  split; [|split; [|split]].
  - normal_goal (constraints problem).
    repeat (apply List.Forall_cons; [|]); try apply List.Forall_nil.
    all: split; [vm_compute; tauto|]; cbn [lhs snd terms].
    all: repeat (apply List.Forall_cons; [|]); try apply List.Forall_nil.
    all: cbn [fst]; split; [vm_compute; tauto|]; (split; [vm_compute; tauto|]).
    all: first [ exists "FRANGO"; split; [vm_compute; tauto | vm_compute; reflexivity]
               | exists "ARROZ_BRANCO"; split; [vm_compute; tauto | vm_compute; reflexivity]
               | exists "FEIJÃO"; split; [vm_compute; tauto | vm_compute; reflexivity]
               | exists "FAROFA"; split; [vm_compute; tauto | vm_compute; reflexivity]
               | exists "MAÇÃ"; split; [vm_compute; tauto | vm_compute; reflexivity]
               | exists "ÓLEO_DE_SOJA"; split; [vm_compute; tauto | vm_compute; reflexivity] ].
  - repeat (apply List.Forall_cons; [|]); try apply List.Forall_nil.
    + exists "CalorieRequirement". eexists. split; [vm_compute; left; reflexivity | vm_compute; reflexivity].
    + exists "MinProteinRequirement". eexists. split; [vm_compute; right; left; reflexivity | vm_compute; reflexivity].
    + exists "MinFatRequirement". eexists.
      split; [vm_compute; do 3 right; left; reflexivity | vm_compute; reflexivity].
    + exists "MinCarbohydrateRequirement". eexists.
      split; [vm_compute; do 5 right; left; reflexivity | vm_compute; reflexivity].
    + exists "SaltRequirement". eexists.
      split; [vm_compute; do 7 right; left; reflexivity | vm_compute; reflexivity].
  - vm_compute. reflexivity.
  - normal_goal (constraints problem).
    repeat (apply List.Forall2_cons; [|]); try apply List.Forall2_nil.
    all: split; [|vm_compute; reflexivity].
    all: cbn [lhs snd terms].
    all: match goal with
         | |- Forall2 _ _ (nonzero_entries ?table) => normal_goal (nonzero_entries table)
         end.
    all: repeat (apply List.Forall2_cons;
                 [cbn [fst snd]; split;
                  [vm_compute; reflexivity
                  | eexists; split; [vm_compute; reflexivity | reflexivity]]|]).
    all: apply List.Forall2_nil.
Qed.

(** ** Names used twice *)

(** C3, as stated, fails: after [LpVariable.dicts] has made a variable named
    Ingr_MAÇÃ, the constructor makes a second one of that name, and likewise
    for the three other names; the declaration and [writeLP] end without
    error. *)
Lemma duplicate_name_accepted :
  (exists d, LpVariable_dicts "Ingr" Ingredients (Some 0%Q) None LpInteger [] =
             Ok (d, dicts_objects)) /\
  In "Ingr_MAÇÃ" (map name dicts_objects) /\
  LpVariable_new "Ingr_MAÇÃ" (Some 1%Q) (Some 1%Q) LpInteger dicts_objects =
    Ok (apple, dicts_objects ++ [apple]) /\
  declare [] = Ok (globals, objects) /\
  map (fun nm => count_name nm objects)
      ["Ingr_MAÇÃ"; "Ingr_FRANGO"; "Ingr_FEIJÃO"; "Ingr_FAROFA"] = [2; 2; 2; 2]%nat /\
  writeLP problem = Ok tt.
Proof.
  split; [eexists; vm_compute; reflexivity|].
  split; [vm_compute; tauto|].
  do 3 (split; [vm_compute; reflexivity|]). vm_compute; reflexivity.
Qed.

(** C3, amended.  The constructor of a variable refuses no name: it makes a
    new object whatever objects exist.  In the script four names are used
    twice; the second object replaces the first under its key, the problem
    refers to the latest object of each name only, the names of its variables
    are distinct, and [writeLP] finds no repeated name. *)
Theorem LpVariable_new_never_rejects :
  (forall nm lb ub c heap, exists v,
      LpVariable_new nm lb ub c heap = Ok (v, heap ++ [v]) /\
      vid v = length heap /\ name v = translate nm) /\
  declare [] = Ok (globals, objects) /\
  Forall (fun nm => count_name nm objects = 2%nat)
         ["Ingr_MAÇÃ"; "Ingr_FRANGO"; "Ingr_FEIJÃO"; "Ingr_FAROFA"] /\
  Forall (fun i => exists v, ingredient_vars !! i = Some v /\
                             forall w, In w objects -> name w = name v -> (vid w <= vid v)%nat)
         Ingredients /\
  Forall (fun v => forall w, In w objects -> name w = name v -> (vid w <= vid v)%nat)
         (variables problem) /\
  NoDup (map name (variables problem)) /\
  writeLP problem = Ok tt.
Proof.
  split.
  { intros nm lb ub c heap. unfold LpVariable_new.
    destruct c; eexists; (split; [reflexivity | split; reflexivity]). }
  split; [vm_compute; reflexivity|].
  split.
  { repeat (apply List.Forall_cons; [vm_compute; reflexivity|]). apply List.Forall_nil. }
  assert (latest : forall v, In v (variables problem) ->
            forall w, In w objects -> name w = name v -> (vid w <= vid v)%nat).
  { intros v Hv w Hw. normal_in Hv (variables problem). normal_in Hw objects.
    cbn [In] in Hv, Hw.
    repeat (destruct Hv as [<-|Hv]; [|]); try contradiction;
      repeat (destruct Hw as [<-|Hw]; [|]); try contradiction;
      cbn [name vid]; intros E; first [discriminate E | lia]. }
  split.
  { unfold Ingredients.
    repeat (apply List.Forall_cons;
            [eexists; split; [vm_compute; reflexivity
                             | apply latest; vm_compute; tauto]|]).
    apply List.Forall_nil. }
  split.
  { apply List.Forall_forall. exact latest. }
  split; [|vm_compute; reflexivity].
  normal_goal (map name (variables problem)).
  repeat (apply NoDup_cons; split; [rewrite list_elem_of_In; cbn [In]; intuition discriminate|]).
  apply NoDup_nil_2.
Qed.

(** ** The report *)

Lemma writeLP_ok : writeLP problem = Ok tt.
Proof. vm_compute. reflexivity. Qed.

(** The script reaches its report whatever the solver does. *)
Lemma main_reports (solve : LpProblem -> Z * Store) :
  main solve = report globals (solve problem).1 (solve problem).2.
Proof.
  unfold main. rewrite declare_ok. fold problem. rewrite writeLP_ok.
  destruct (solve problem). reflexivity.
Qed.

(** C2, as stated, fails: in a run where the solver returns the status
    infeasible, or unbounded, and leaves values in the variables, the script
    prints the value of every variable and the objective value. *)
Lemma report_reads_when_infeasible :
  LpStatusInfeasible <> LpStatusOptimal /\ LpStatusUnbounded <> LpStatusOptimal /\
  reads_assignment (main (returning LpStatusInfeasible a_meal)).1 /\
  reads_objective (main (returning LpStatusInfeasible a_meal)).1 /\
  reads_assignment (main (returning LpStatusUnbounded a_meal)).1 /\
  reads_objective (main (returning LpStatusUnbounded a_meal)).1.
Proof.
  split; [discriminate|]. split; [discriminate|].
  split; [exists "Ingr_FAROFA", 1%Q; vm_compute; tauto|].
  split; [eexists; vm_compute; do 7 right; left; reflexivity|].
  split; [exists "Ingr_FAROFA", 1%Q; vm_compute; tauto|].
  eexists; vm_compute; do 7 right; left; reflexivity.
Qed.

Lemma run_steps_ok (out : list Output) (rest : list (result (list Output))) :
  run_steps (Ok out :: rest) = (out ++ (run_steps rest).1, (run_steps rest).2).
Proof. cbn [run_steps]. destruct (run_steps rest). reflexivity. Qed.

Lemma print_cost_problem (st : Store) :
  print_cost (g_problem globals) st =
  match value st cost_expr with
  | Some x => Ok [PrintAmount "Total Cost per meal" x]
  | None => Raise (TypeError "unsupported format string passed to NoneType.__format__")
  end.
Proof.
  unfold print_cost. normal_goal (objective (g_problem globals)). normal_goal cost_expr.
  cbv beta iota.
  match goal with |- context [value st ?e] => destruct (value st e) end; reflexivity.
Qed.

(** C2, amended.  Whatever status the solver returns, the script prints the
    status and then the value of every variable of the problem, and goes on
    to evaluate the objective: its value is printed next when every variable
    has one, and the script stops there with a TypeError otherwise.  No
    statement of the report depends on the status. *)
Theorem report_reads_whatever_status (solve : LpProblem -> Z * Store)
    (status : Z) (label : string) (st : Store) :
  solve problem = (status, st) ->
  LpStatus !! status = Some label ->
  exists rest,
    (main solve).1 =
      PrintStatus label
        :: map (fun v => PrintVariable (name v) (varValue st v)) (variables problem) ++ rest /\
    match value st cost_expr with
    | Some x => exists rest', rest = PrintAmount "Total Cost per meal" x :: rest'
    | None =>
        rest = [] /\
        (main solve).2 =
          Some (TypeError "unsupported format string passed to NoneType.__format__")
    end.
Proof.
  intros S H. rewrite main_reports, S. cbn [fst snd].
  unfold report, print_status, print_variables. rewrite H.
  rewrite !run_steps_ok, print_cost_problem. fold problem.
  destruct (value st cost_expr) as [x|].
  - rewrite run_steps_ok. cbn [fst]. eexists. split; [reflexivity|].
    eexists. reflexivity.
  - exists []. cbn [run_steps fst snd]. split; [reflexivity|]. split; reflexivity.
Qed.

(** A run that ends with the status infeasible prints the six values. *)
Lemma report_reads_whatever_status_witness :
  returning LpStatusInfeasible a_meal problem = (LpStatusInfeasible, a_meal) /\
  LpStatus !! LpStatusInfeasible = Some "Infeasible" /\
  exists rest,
    (main (returning LpStatusInfeasible a_meal)).1 =
      PrintStatus "Infeasible"
        :: map (fun v => PrintVariable (name v) (varValue a_meal v)) (variables problem) ++ rest.
Proof.
  assert (S : returning LpStatusInfeasible a_meal problem = (LpStatusInfeasible, a_meal))
    by reflexivity.
  assert (H : LpStatus !! LpStatusInfeasible = Some "Infeasible") by (vm_compute; reflexivity).
  split; [exact S|]. split; [exact H|].
  destruct (report_reads_whatever_status _ LpStatusInfeasible "Infeasible" a_meal S H)
    as (rest & E & _).
  exists rest. exact E.
Defined.

(** * The Branch-and-Bound Driver keeps what the relaxations give *)

Section DriverProperties.

Variable solveRelaxation : Core.Model -> Core.Relaxation.
Variable root : Core.Model.

(** What the driver needs of an assignment [x] found at a node [m]. *)
Variable good : list Q -> Prop.
Hypothesis good_candidate :
  forall m z x,
    variant root m -> solveRelaxation m = Core.LpOptimal z x ->
    Core.all_integral (Core.m_variables m) x = true -> good x.

Lemma flags_alter (f : Core.ModelVariable -> Core.ModelVariable) (j : nat)
    (vs : list Core.ModelVariable) :
  (forall v, Core.integrality (f v) = Core.integrality v) ->
  map Core.integrality (alter f j vs) = map Core.integrality vs.
Proof.
  intros Hf. revert j. induction vs as [|v vs IH]; intros [|j]; cbn; try reflexivity.
  - rewrite Hf. reflexivity.
  - f_equal. apply IH.
Qed.

Lemma variant_tighten (j : nat) (f : Core.ModelVariable -> Core.ModelVariable)
    (m : Core.Model) :
  (forall v, Core.integrality (f v) = Core.integrality v) ->
  variant root m -> variant root (Core.tighten j f m).
Proof.
  intros Hf (Hflags & Hcs). split; cbn [Core.tighten Core.m_variables Core.m_constraints].
  - rewrite flags_alter; assumption.
  - exact Hcs.
Qed.

(** The invariant of the loop: every node of the frontier is a variant of
    the root, and the incumbent is good. *)
Lemma search_keeps_good (budget : nat) :
  forall frontier incumbent warnings z x,
    Forall (fun n => variant root (Core.node_model n)) frontier ->
    (forall z' x', incumbent = Some (z', x') -> good x') ->
    carried (Core.search solveRelaxation budget frontier incumbent warnings).1 = Some (z, x) ->
    good x.
Proof.
  induction budget as [|budget IH]; intros frontier incumbent warnings z x Hf Hi.
  - destruct frontier as [|node frontier]; cbn [Core.search fst];
      destruct incumbent as [[z' x']|]; cbn [carried]; intros E;
      try discriminate E; injection E as <- <-; eapply Hi; reflexivity.
  - destruct frontier as [|node frontier].
    { cbn [Core.search fst]. destruct incumbent as [[z' x']|]; cbn [carried]; intros E;
        try discriminate E. injection E as <- <-. eapply Hi; reflexivity. }
    apply Forall_cons in Hf as [Hn Hf]. cbn [Core.search].
    destruct (solveRelaxation (Core.node_model node)) as [z' x'| | |] eqn:R.
    + destruct (Core.dominated _ z' incumbent); [apply IH; assumption|].
      destruct (Core.all_integral _ x') eqn:A.
      * apply IH; [assumption|]. intros ? ? E. injection E as <- <-.
        eapply good_candidate; eassumption.
      * destruct (Core.most_fractional 0 _ x' None) as [[j v]|]; [|apply IH; assumption].
        apply IH; [|assumption].
        apply List.Forall_cons; [|apply List.Forall_cons; [|assumption]];
          cbn [Core.node_model]; apply variant_tighten; try assumption; reflexivity.
    + apply IH; assumption.
    + cbn [fst carried]. discriminate.
    + apply IH; assumption.
Qed.

Lemma solve_keeps_good (budget : nat) (z : Q) (x : list Q) :
  carried (Core.solve solveRelaxation budget root) = Some (z, x) -> good x.
Proof.
  unfold Core.solve. apply search_keeps_good.
  - apply List.Forall_cons; [|apply List.Forall_nil]. split; reflexivity.
  - intros ? ? E. discriminate E.
Qed.

End DriverProperties.

(** ** Integrality of an optimum *)

Lemma all_integral_flags (vs vs' : list Core.ModelVariable) (xs : list Q) :
  map Core.integrality vs = map Core.integrality vs' ->
  Core.all_integral vs xs = Core.all_integral vs' xs.
Proof.
  revert vs' xs. induction vs as [|v vs IH]; intros [|v' vs'] xs E; try discriminate E.
  - reflexivity.
  - cbn [map] in E. injection E as Ev E. cbn [Core.all_integral]. rewrite Ev.
    rewrite (IH vs' (tail xs) E). reflexivity.
Qed.

Lemma all_integral_lookup (vs : list Core.ModelVariable) :
  forall (xs : list Q) (j : nat) (v : Core.ModelVariable),
    Core.all_integral vs xs = true ->
    vs !! j = Some v -> Core.integrality v = Core.integer ->
    exists x, xs !! j = Some x /\ Core.near_integer x = true.
Proof.
  induction vs as [|w vs IH]; intros xs j v A L F; [discriminate L|].
  cbn [Core.all_integral] in A. destruct j as [|j]; cbn in L.
  - injection L as ->. rewrite F in A. destruct xs as [|x xs]; [discriminate A|].
    apply andb_prop in A as [A _]. exists x. split; [reflexivity | exact A].
  - assert (A' : Core.all_integral vs (tail xs) = true).
    { destruct (Core.integrality w); [exact A|].
      destruct xs; [discriminate A|]. apply andb_prop in A as [_ A]. exact A. }
    destruct (IH _ _ _ A' L F) as (x & Ex & Hx). exists x. split; [|exact Hx].
    destruct xs as [|x0 xs]; [discriminate Ex | exact Ex].
Qed.

Lemma near_integer_close (x : Q) :
  Core.near_integer x = true -> (Qabs (x - inject_Z (Core.nearest x)) <= Core.eps)%Q.
Proof. unfold Core.near_integer. apply Qle_bool_iff. Qed.

Lemma meal_model_variables :
  Core.m_variables meal_model = map core_variable (variables problem).
Proof. vm_compute. reflexivity. Qed.

Lemma problem_variables_integer : Forall (fun v => cat v = LpInteger) (variables problem).
Proof.
  rewrite problem_variables.
  repeat (apply List.Forall_cons; [vm_compute; reflexivity|]). apply List.Forall_nil.
Qed.

(** C5.  Every variable of the problem is integer-flagged, and when the
    driver returns the status optimal for the declared model the value of each
    of them is within the tolerance of an integer. *)
Theorem optimal_values_near_integer (solveRelaxation : Core.Model -> Core.Relaxation)
    (budget : nat) (z : Q) (xs : list Q) :
  Core.solve solveRelaxation budget meal_model = Core.Optimal z xs ->
  Forall (fun v => cat v = LpInteger) (variables problem) /\
  forall j v, variables problem !! j = Some v ->
    exists x k, xs !! j = Some x /\ (Qabs (x - inject_Z k) <= Core.eps)%Q.
Proof.
  intros H. split; [exact problem_variables_integer|]. intros j v L.
  assert (A : Core.all_integral (Core.m_variables meal_model) xs = true).
  { apply (solve_keeps_good solveRelaxation meal_model
             (fun x => Core.all_integral (Core.m_variables meal_model) x = true))
      with (budget := budget) (z := z).
    - intros m z' x (Hflags & _) _ A. rewrite <- (all_integral_flags _ _ _ Hflags). exact A.
    - rewrite H. reflexivity. }
  destruct (all_integral_lookup _ xs j (core_variable v) A) as (x & Ex & Hx).
  - rewrite meal_model_variables, list_lookup_fmap, L. reflexivity.
  - pose proof problem_variables_integer as F. rewrite Forall_lookup in F.
    unfold core_variable. cbn [Core.integrality]. rewrite (F j v L). reflexivity.
  - exists x, (Core.nearest x). split; [exact Ex | apply near_integer_close; exact Hx].
Qed.

(** With the relaxation solver that knows [known_meal], the driver returns
    that meal as optimal, and its values are integers. *)
Lemma optimal_values_near_integer_witness :
  Core.solve (one_point known_meal) 1 meal_model =
    Core.Optimal (Core.dot (Core.m_objective meal_model) known_meal) known_meal /\
  forall j v, variables problem !! j = Some v ->
    exists x k, known_meal !! j = Some x /\ (Qabs (x - inject_Z k) <= Core.eps)%Q.
Proof.
  assert (H : Core.solve (one_point known_meal) 1 meal_model =
              Core.Optimal (Core.dot (Core.m_objective meal_model) known_meal) known_meal)
    by (vm_compute; reflexivity).
  split; [exact H | apply (optimal_values_near_integer _ _ _ _ H)].
Defined.

(** * Further properties of the script *)

(** ** [LpVariable.dicts] *)

Lemma LpVariable_new_fields (nm : string) (lb ub : option Q) (c : LpCategory)
    (heap : list LpVariable) :
  exists v, LpVariable_new nm lb ub c heap = Ok (v, heap ++ [v]) /\
            vid v = length heap /\ name v = translate nm /\
            (c <> LpBinary -> lowBound v = lb /\ upBound v = ub /\ cat v = c).
Proof.
  unfold LpVariable_new. destruct c; eexists; (split; [reflexivity|]);
    (split; [reflexivity|]); (split; [reflexivity|]); intros H;
    first [contradiction | repeat split].
Qed.

Lemma dicts_from_spec (indices : list string) :
  forall (d0 : gmap string LpVariable) (nm : string) (lb ub : option Q) (c : LpCategory)
         (heap : list LpVariable),
  exists d new,
    LpVariable_dicts_from d0 nm indices lb ub c heap = Ok (d, heap ++ new) /\
    length new = length indices /\
    (forall k i, indices !! k = Some i ->
       exists v, new !! k = Some v /\ vid v = (length heap + k)%nat /\
                 name v = translate (nm +:+ "_" +:+ i) /\
                 (c <> LpBinary -> lowBound v = lb /\ upBound v = ub /\ cat v = c)) /\
    (forall i, ~ In i indices -> d !! i = d0 !! i) /\
    (forall i, In i indices ->
       exists k v, indices !! k = Some i /\ new !! k = Some v /\ d !! i = Some v /\
                   forall k', (k < k')%nat -> indices !! k' <> Some i).
Proof.
  induction indices as [|i indices IH]; intros d0 nm lb ub c heap.
  - exists d0, []. cbn [LpVariable_dicts_from]. rewrite app_nil_r.
    split; [reflexivity|]. split; [reflexivity|].
    split; [intros k j H; discriminate H|]. split; [reflexivity | intros j []].
  - cbn [LpVariable_dicts_from].
    destruct (LpVariable_new_fields (nm +:+ "_" +:+ i) lb ub c heap) as (v & Ev & Hid & Hnm & Hf).
    unfold mbind, Py_bind. rewrite Ev.
    destruct (IH (<[i:=v]> d0) nm lb ub c (heap ++ [v]))
      as (d & new & E & L & Hk & Hout & Hin).
    exists d, (v :: new). rewrite E, <- app_assoc. cbn [app].
    split; [reflexivity|]. split; [cbn [length]; rewrite L; reflexivity|].
    split; [|split].
    + intros [|k] j Hj; cbn in Hj.
      * injection Hj as <-. exists v. split; [reflexivity|]. split; [lia|].
        split; [exact Hnm | exact Hf].
      * destruct (Hk k j Hj) as (w & Ew & Hw & Hrest). exists w. split; [exact Ew|].
        rewrite length_app in Hw. cbn [length] in Hw. split; [lia | exact Hrest].
    + intros j Hj. rewrite (Hout j); [|intros H; apply Hj; right; exact H].
      apply lookup_insert_ne. intros ->. apply Hj. left. reflexivity.
    + intros j Hj. destruct (in_dec String.string_dec j indices) as [Hr|Hr].
      * destruct (Hin j Hr) as (k & w & Ek & Ew & Ed & Hlast).
        exists (S k), w. split; [exact Ek|]. split; [exact Ew|]. split; [exact Ed|].
        intros [|k'] Hlt; [lia|]. cbn. apply Hlast. lia.
      * destruct Hj as [<-|Hj]; [|contradiction].
        exists 0%nat, v. split; [reflexivity|]. split; [reflexivity|].
        split; [rewrite (Hout i Hr); apply lookup_insert_eq|].
        intros [|k'] Hlt; [lia|]. cbn. intros Hk'. apply Hr.
        apply list_elem_of_In. apply (list_elem_of_lookup_2 _ k'). exact Hk'.
Qed.



(** ** The products of a table and the variables *)


(** ** The value of an expression *)

Lemma value_from_defined (st : Store) (ts : list (LpVariable * Q)) (s : Q) :
  defined st ts -> exists y, value_from st ts s = Some y.
Proof.
  revert s. induction ts as [|[v x] ts IH]; intros s D.
  - exists s. reflexivity.
  - apply Forall_cons in D as [[y Ey] D]. cbn [fst] in Ey.
    cbn [value_from]. rewrite Ey. apply IH. exact D.
Qed.

Lemma value_from_none (st : Store) (ts : list (LpVariable * Q)) (s : Q) :
  value_from st ts s = None <-> exists t, In t ts /\ varValue st t.1 = None.
Proof.
  revert s. induction ts as [|[v x] ts IH]; intros s; cbn [value_from].
  - split; [discriminate | intros (t & [] & _)].
  - destruct (varValue st v) as [y|] eqn:E.
    + rewrite IH. split.
      * intros (t & Ht & Hn). exists t. split; [right; exact Ht | exact Hn].
      * intros (t & [<-|Ht] & Hn); [cbn in Hn; congruence | exists t; tauto].
    + split; [|reflexivity]. intros _. exists (v, x). split; [left; reflexivity | exact E].
Qed.

Lemma value_some_defined (st : Store) (e : LpAffineExpression) (y : Q) :
  value st e = Some y -> defined st (terms e).
Proof.
  unfold value. intros E. apply List.Forall_forall. intros t Ht.
  destruct (varValue st t.1) as [x|] eqn:Ex; [eexists; reflexivity|].
  assert (N : value_from st (terms e) (constant e) = None)
    by (apply value_from_none; exists t; split; assumption).
  rewrite N in E. discriminate E.
Qed.

(** ** The variables of a problem *)

Lemma addVariables_ids (acc new : list LpVariable) :
  List.NoDup (map vid acc) ->
  List.NoDup (map vid (addVariables acc new)) /\
  forall n, In n (map vid (addVariables acc new)) <-> In n (map vid acc) \/ In n (map vid new).
Proof.
  unfold addVariables. revert acc. induction new as [|v new IH]; intros acc N.
  - cbn [fold_left map]. split; [exact N | intros n; cbn [In]; tauto].
  - cbn [fold_left map].
    destruct (existsb (fun w => Nat.eqb (vid w) (vid v)) acc) eqn:E.
    + destruct (IH acc N) as [N' M]. split; [exact N'|]. intros n. rewrite M. cbn [In].
      apply existsb_exists in E as (w & Hw & Ew). apply Nat.eqb_eq in Ew.
      assert (In (vid v) (map vid acc)) by (rewrite <- Ew; apply in_map; exact Hw).
      split; [tauto|]. intros [H'|[<-|H']]; tauto.
    + assert (Hn : ~ In (vid v) (map vid acc)).
      { intros Hin. apply in_map_iff in Hin as (w & Ew & Hw).
        assert (existsb (fun w => Nat.eqb (vid w) (vid v)) acc = true).
        { apply existsb_exists. exists w. split; [exact Hw | apply Nat.eqb_eq; exact Ew]. }
        congruence. }
      destruct (IH (acc ++ [v])) as [N' M].
      { rewrite map_app. cbn [map]. apply NoDup_ListNoDup. apply NoDup_app.
        split; [apply NoDup_ListNoDup; exact N|]. split.
        - intros n Hin [E'|[]]%list_elem_of_In. apply Hn. rewrite E'.
          apply list_elem_of_In. exact Hin.
        - apply NoDup_singleton. }
      split; [exact N'|]. intros n. rewrite M, map_app, in_app_iff. cbn [map In]. tauto.
Qed.

Lemma insert_by_name_perm (v : LpVariable) (vs : list LpVariable) :
  Permutation (insert_by_name v vs) (v :: vs).
Proof.
  induction vs as [|w vs IH]; cbn [insert_by_name]; [reflexivity|].
  destruct (String.ltb (name v) (name w)); [reflexivity|].
  rewrite IH. apply perm_swap.
Qed.

Lemma sort_by_name_perm (vs : list LpVariable) : Permutation (sort_by_name vs) vs.
Proof.
  unfold sort_by_name.
  assert (G : forall acc, Permutation (fold_left (fun acc v => insert_by_name v acc) vs acc)
                                      (acc ++ vs)).
  { induction vs as [|v vs IH]; intros acc; cbn [fold_left].
    - rewrite app_nil_r. reflexivity.
    - rewrite IH, insert_by_name_perm. cbn [app]. apply Permutation_middle. }
  apply (G []).
Qed.

Lemma ltb_asym (s t : string) : String.ltb s t = true -> String.ltb t s = false.
Proof.
  unfold String.ltb. rewrite (String.compare_antisym s t).
  destruct (String.compare t s); cbn [CompOpp]; congruence.
Qed.

Lemma insert_by_name_sorted (v : LpVariable) (vs : list LpVariable) :
  Sorted name_le vs -> Sorted name_le (insert_by_name v vs).
Proof.
  induction vs as [|w vs IH]; intros S; cbn [insert_by_name].
  - apply Sorted_cons; [apply Sorted_nil | apply HdRel_nil].
  - destruct (String.ltb (name v) (name w)) eqn:E.
    + apply Sorted_cons; [exact S|]. apply HdRel_cons. unfold name_le. apply ltb_asym. exact E.
    + apply Sorted_inv in S as [S Hd]. apply Sorted_cons; [apply IH; exact S|].
      destruct vs as [|u vs]; cbn [insert_by_name].
      * apply HdRel_cons. exact E.
      * destruct (String.ltb (name v) (name u)); apply HdRel_cons;
          [exact E | inversion Hd; assumption].
Qed.

Lemma sort_by_name_sorted (vs : list LpVariable) : Sorted name_le (sort_by_name vs).
Proof.
  unfold sort_by_name.
  assert (G : forall acc, Sorted name_le acc ->
                          Sorted name_le (fold_left (fun acc v => insert_by_name v acc) vs acc)).
  { induction vs as [|v vs IH]; intros acc S; cbn [fold_left]; [exact S|].
    apply IH. apply insert_by_name_sorted. exact S. }
  apply G. apply Sorted_nil.
Qed.

Lemma addVariables_constraints (cs : list (string * LpConstraint)) :
  forall acc : list LpVariable,
    List.NoDup (map vid acc) ->
    List.NoDup (map vid (fold_left (fun acc nc => addVariables acc (expr_vars (lhs nc.2)))
                                   cs acc)) /\
    forall n,
      In n (map vid (fold_left (fun acc nc => addVariables acc (expr_vars (lhs nc.2))) cs acc))
      <-> In n (map vid acc) \/
          In n (map vid (concat (map (fun nc => expr_vars (lhs nc.2)) cs))).
Proof.
  induction cs as [|nc cs IH]; intros acc N; cbn [fold_left map concat].
  - split; [exact N | intros n; cbn [In]; tauto].
  - destruct (addVariables_ids acc (expr_vars (lhs nc.2)) N) as [N' M'].
    destruct (IH _ N') as [N'' M'']. split; [exact N''|].
    intros n. rewrite M'', M', map_app, in_app_iff. tauto.
Qed.

(** X5.  [problem.variables()] lists every variable object that the
    objective or a constraint mentions, each object once, in the order of
    the names. *)
Theorem variables_once_and_sorted (p : LpProblem) :
  List.NoDup (map vid (variables p)) /\
  (forall n, In n (map vid (variables p)) <-> In n (map vid (mentioned p))) /\
  Sorted name_le (variables p).
Proof.
  unfold variables.
  set (from_constraints := fold_left (fun acc nc => addVariables acc (expr_vars (lhs nc.2)))
                                     (constraints p) []).
  set (all := match objective p with
              | Some (_, e) => addVariables from_constraints (expr_vars e)
              | None => from_constraints
              end).
  destruct (addVariables_constraints (constraints p) [] (List.NoDup_nil _)) as [Nc Mc].
  fold from_constraints in Nc, Mc.
  assert (A : List.NoDup (map vid all) /\
              forall n, In n (map vid all) <-> In n (map vid (mentioned p))).
  { unfold all, mentioned. destruct (objective p) as [[nm e]|].
    - destruct (addVariables_ids from_constraints (expr_vars e) Nc) as [N M].
      split; [exact N|]. intros n. rewrite M, Mc, map_app, in_app_iff. cbn [map In]. tauto.
    - split; [exact Nc|]. intros n. rewrite Mc. cbn [map In app]. tauto. }
  destruct A as [N M]. pose proof (sort_by_name_perm all) as P.
  split; [|split].
  - apply (Permutation_NoDup (l := map vid all)); [|exact N].
    apply Permutation_map. symmetry. exact P.
  - intros n. rewrite <- M. split; apply Permutation_in; apply Permutation_map;
      [exact P | symmetry; exact P].
  - apply sort_by_name_sorted.
Qed.

(** ** [writeLP] *)

Lemma count_name_occ (nm : string) (vs : list LpVariable) :
  count_name nm vs = count_occ String.string_dec (map name vs) nm.
Proof.
  unfold count_name. induction vs as [|v vs IH]; [reflexivity|].
  cbn [map count_occ]. rewrite filter_cons.
  destruct (decide (name v = nm)) as [E|E];
    destruct (String.string_dec (name v) nm) as [E'|E'];
    try contradiction; cbn [length]; rewrite IH; reflexivity.
Qed.

Lemma count_up_of (nm k : string) (counts : list (string * nat)) :
  count_of k (count_up nm counts) =
  if String.eqb nm k then S (count_of k counts) else count_of k counts.
Proof.
  induction counts as [|[k' n] counts IH]; cbn [count_up count_of].
  - destruct (String.eqb nm k); reflexivity.
  - destruct (String.eqb k' nm) eqn:E; cbn [count_of].
    + apply String.eqb_eq in E. subst k'. destruct (String.eqb nm k); reflexivity.
    + destruct (String.eqb k' k) eqn:E'; [|exact IH].
      apply String.eqb_eq in E'. subst k'. rewrite String.eqb_sym, E. reflexivity.
Qed.

(** The dict counts the variables of each name. *)
Lemma name_counts_of (k : string) (vs : list LpVariable) :
  count_of k (name_counts vs) = count_name k vs.
Proof.
  unfold name_counts.
  assert (G : forall acc,
            count_of k (fold_left (fun counts v => count_up (name v) counts) vs acc)
            = (count_of k acc + count_name k vs)%nat).
  { induction vs as [|v vs IH]; intros acc; cbn [fold_left].
    - unfold count_name. cbn. lia.
    - rewrite IH, count_up_of. unfold count_name. rewrite filter_cons.
      destruct (decide (name v = k)) as [->|N].
      + rewrite String.eqb_refl. cbn [length]. lia.
      + apply String.eqb_neq in N. rewrite N. lia. }
  apply (G []).
Qed.

Lemma count_up_keys (nm : string) (counts : list (string * nat)) :
  (forall k, In k (map fst (count_up nm counts)) <-> k = nm \/ In k (map fst counts)) /\
  (List.NoDup (map fst counts) -> List.NoDup (map fst (count_up nm counts))).
Proof.
  induction counts as [|[k' n] counts [IH1 IH2]]; cbn [count_up map fst].
  - split; [intros k; cbn [In]; intuition congruence|].
    intros _. apply List.NoDup_cons; [intros [] | apply List.NoDup_nil].
  - destruct (String.eqb k' nm) eqn:E; cbn [map fst].
    + apply String.eqb_eq in E. subst k'. split; [|tauto].
      intros k. cbn [In]. intuition congruence.
    + apply String.eqb_neq in E. split.
      * intros k. cbn [In]. rewrite IH1. tauto.
      * intros N. apply List.NoDup_cons_iff in N as [N1 N2].
        apply List.NoDup_cons; [|apply IH2; exact N2].
        rewrite IH1. intros [->|H]; [congruence | contradiction].
Qed.

(** A name is a key of the dict once. *)
Lemma name_counts_keys (vs : list LpVariable) : List.NoDup (map fst (name_counts vs)).
Proof.
  unfold name_counts.
  assert (G : forall acc, List.NoDup (map fst acc) ->
              List.NoDup (map fst (fold_left (fun counts v => count_up (name v) counts) vs acc))).
  { induction vs as [|v vs IH]; intros acc N; cbn [fold_left]; [exact N|].
    apply IH. apply count_up_keys. exact N. }
  apply G. apply List.NoDup_nil.
Qed.

Lemma count_of_entry (k : string) (n : nat) (counts : list (string * nat)) :
  List.NoDup (map fst counts) -> In (k, n) counts -> count_of k counts = n.
Proof.
  induction counts as [|[k' n'] counts IH]; intros N H; [destruct H|].
  cbn [map fst] in N. apply List.NoDup_cons_iff in N as [N1 N2]. cbn [count_of].
  destruct H as [E|H].
  - injection E as -> ->. rewrite String.eqb_refl. reflexivity.
  - destruct (String.eqb k' k) eqn:E; [|apply IH; assumption].
    apply String.eqb_eq in E. subst k'. exfalso. apply N1.
    apply (in_map fst) in H. exact H.
Qed.

Lemma count_of_In (k : string) (counts : list (string * nat)) :
  count_of k counts <> 0%nat -> In (k, count_of k counts) counts.
Proof.
  induction counts as [|[k' n'] counts IH]; cbn [count_of]; [congruence|].
  destruct (String.eqb k' k) eqn:E.
  - apply String.eqb_eq in E. subst k'. intros _. left. reflexivity.
  - intros H. right. apply IH. exact H.
Qed.

(** The repeated names are the names that two variables or more have, each
    with the number of the variables that have it. *)
Lemma repeated_names_spec (vs : list LpVariable) (nm : string) (n : nat) :
  In (nm, n) (repeated_names vs) <-> n = count_name nm vs /\ (2 <= n)%nat.
Proof.
  unfold repeated_names. rewrite <- list_elem_of_In, list_elem_of_filter, list_elem_of_In.
  cbn [snd]. split.
  - intros [L H]. split; [|exact L].
    rewrite <- name_counts_of. symmetry. apply count_of_entry; [apply name_counts_keys | exact H].
  - intros [-> L]. split; [exact L|]. rewrite <- name_counts_of. apply count_of_In.
    rewrite name_counts_of. lia.
Qed.

Lemma repeated_names_nil (vs : list LpVariable) :
  repeated_names vs = [] <-> NoDup (map name vs).
Proof.
  rewrite NoDup_ListNoDup, (List.NoDup_count_occ String.string_dec). split.
  - intros H nm.
    destruct (le_lt_dec (count_occ String.string_dec (map name vs) nm) 1) as [L|L];
      [exact L|exfalso].
    assert (Hin : In (nm, count_name nm vs) (repeated_names vs)).
    { apply repeated_names_spec. split; [reflexivity|]. rewrite count_name_occ. lia. }
    rewrite H in Hin. destruct Hin.
  - intros H. destruct (repeated_names vs) as [|[nm n] rest] eqn:E; [reflexivity|exfalso].
    assert (Hin : In (nm, n) (repeated_names vs)) by (rewrite E; left; reflexivity).
    apply repeated_names_spec in Hin as [-> L]. rewrite count_name_occ in L.
    specialize (H nm). lia.
Qed.

Lemma long_names_spec (max_length : nat) (vs : list LpVariable) (nm : string) :
  In nm (long_names max_length vs) <-> In nm (map name vs) /\ (max_length < py_len nm)%nat.
Proof.
  unfold long_names. rewrite <- list_elem_of_In, list_elem_of_fmap. split.
  - intros (v & -> & Hv). apply list_elem_of_filter in Hv as [L Hv]. split; [|exact L].
    apply in_map. apply list_elem_of_In. exact Hv.
  - intros [H L]. apply in_map_iff in H as (v & <- & Hv). exists v. split; [reflexivity|].
    apply list_elem_of_filter. split; [exact L | apply list_elem_of_In; exact Hv].
Qed.

Lemma long_names_nil (max_length : nat) (vs : list LpVariable) :
  long_names max_length vs = [] <-> Forall (fun v => (py_len (name v) <= max_length)%nat) vs.
Proof.
  rewrite List.Forall_forall. split.
  - intros H v Hv. destruct (le_lt_dec (py_len (name v)) max_length) as [L|L]; [exact L|exfalso].
    assert (Hin : In (name v) (long_names max_length vs)).
    { apply long_names_spec. split; [apply in_map; exact Hv | exact L]. }
    rewrite H in Hin. destruct Hin.
  - intros H. destruct (long_names max_length vs) as [|nm rest] eqn:E; [reflexivity|exfalso].
    assert (Hin : In nm (long_names max_length vs)) by (rewrite E; left; reflexivity).
    apply long_names_spec in Hin as [Hin L]. apply in_map_iff in Hin as (v & <- & Hv).
    specialize (H v Hv). lia.
Qed.

(** X6.  For a problem whose objective and constraints each hold a variable,
    the checks of [writeLP] go through exactly when no variable of the
    problem has a name of more than 100 characters and no two have the same
    name.  Otherwise [writeLP] raises a PulpError: for the names that are too
    long, if there are any, and else for the names that are repeated, each
    with the number of the variables that have it. *)
Theorem writeLP_iff_distinct_names (p : LpProblem) :
  needs_dummy p = false ->
  match writeLP p with
  | Ok _ =>
      Forall (fun v => (py_len (name v) <= 100)%nat) (variables p) /\
      NoDup (map name (variables p))
  | Raise e =>
      (exists nms,
          e = PulpError (variable_names_too_long nms) /\ nms <> [] /\
          forall nm, In nm nms <->
                     In nm (map name (variables p)) /\ (100 < py_len nm)%nat) \/
      (exists reps,
          e = PulpError (repeated_variable_names reps) /\
          Forall (fun v => (py_len (name v) <= 100)%nat) (variables p) /\
          ~ NoDup (map name (variables p)) /\
          forall nm n, In (nm, n) reps <->
                       n = count_name nm (variables p) /\ (2 <= n)%nat)
  end.
Proof.
  intros _. unfold writeLP, checkLengthVars, checkDuplicateVars.
  destruct (long_names 100 (variables p)) as [|nm nms] eqn:EL; cbn [mbind result_bind].
  - apply long_names_nil in EL.
    destruct (repeated_names (variables p)) as [|r rs] eqn:ER.
    + split; [exact EL | apply repeated_names_nil; exact ER].
    + right. exists (r :: rs). split; [reflexivity|]. split; [exact EL|]. split.
      * intros N. apply repeated_names_nil in N. rewrite N in ER. discriminate ER.
      * intros k n. rewrite <- ER. apply repeated_names_spec.
  - left. exists (nm :: nms). split; [reflexivity|]. split; [discriminate|].
    intros k. rewrite <- EL. apply long_names_spec.
Qed.

(** The problem of the script passes both checks. *)
Lemma writeLP_iff_distinct_names_witness :
  needs_dummy problem = false /\
  writeLP problem = Ok tt /\
  Forall (fun v => (py_len (name v) <= 100)%nat) (variables problem) /\
  NoDup (map name (variables problem)).
Proof.
  assert (H : needs_dummy problem = false) by (vm_compute; reflexivity).
  assert (W : writeLP problem = Ok tt) by (vm_compute; reflexivity).
  split; [exact H|]. split; [exact W|].
  pose proof (writeLP_iff_distinct_names problem H) as T. rewrite W in T. exact T.
Defined.

(** ** The feasible meals *)

Ltac to_Q :=
  rewrite ?Zle_Qle, ?inject_Z_plus, ?inject_Z_mult;
  change (inject_Z 0) with 0%Q;
  repeat match goal with
         | |- context [inject_Z (Zpos ?p)] => change (inject_Z (Zpos p)) with (Zpos p # 1)
         end.

Ltac to_Q_in H :=
  rewrite ?Zle_Qle, ?inject_Z_plus, ?inject_Z_mult in H;
  repeat match type of H with
         | context [inject_Z (Zpos ?p)] => change (inject_Z (Zpos p)) with (Zpos p # 1) in H
         end.

Lemma meal_servings (st : Store) (r fa fe fr ma ol : Q) :
  meal st r fa fe fr ma ol ->
  exists zfr zr zfe zfa zma zol : Z,
    (fr == inject_Z zfr /\ r == inject_Z zr /\ fe == inject_Z zfe /\
     fa == inject_Z zfa /\ ma == inject_Z zma /\ ol == inject_Z zol)%Q /\
    servings zfr zr zfe zfa zma zol.
Proof.
  intros [_ _ _ _ _ _ (Ir & Ifa & Ife & Ifr & Ima & Iol) B C [P1 P2] [F1 F2] [K1 K2] S].
  destruct B as (? & ? & ? & ? & ? & ? & ?).
  destruct Ir as [zr Hr], Ifa as [zfa Hfa], Ife as [zfe Hfe], Ifr as [zfr Hfr],
           Ima as [zma Hma], Iol as [zol Hol].
  exists zfr, zr, zfe, zfa, zma, zol. split; [tauto|].
  unfold servings. repeat split; to_Q; lra.
Qed.

(** The integral solutions of the inequalities, by linear integer arithmetic. *)
Lemma servings_nine (zfr zr zfe zfa zma zol : Z) :
  servings zfr zr zfe zfa zma zol -> In [zfr; zr; zfe; zfa; zma; zol] feasible_meals.
Proof.
  unfold servings. intros H.
  assert (E : (zfa = 1 /\ zma = 1 /\ zol = 2 /\
    ((zfr = 3 /\ ((zr = 7 /\ zfe = 4) \/ (zr = 6 /\ zfe = 5) \/ (zr = 5 /\ zfe = 6) \/
                  (zr = 4 /\ zfe = 7) \/ (zr = 7 /\ zfe = 5) \/ (zr = 6 /\ zfe = 6))) \/
     (zfr = 4 /\ ((zr = 6 /\ zfe = 4) \/ (zr = 5 /\ zfe = 5) \/ (zr = 7 /\ zfe = 4)))))%Z) by lia.
  clear H. unfold feasible_meals. cbn [In].
  destruct E as (-> & -> & -> & [(-> & E)|(-> & E)]);
    repeat (destruct E as [(-> & ->)|E]; [tauto|]); destruct E as (-> & ->); tauto.
Qed.

Lemma nine_servings (zs : list Z) :
  In zs feasible_meals ->
  exists zfr zr zfe zfa zma zol,
    zs = [zfr; zr; zfe; zfa; zma; zol] /\ servings zfr zr zfe zfa zma zol.
Proof.
  unfold feasible_meals. cbn [In]. intros H.
  repeat (destruct H as [<-|H]; [do 6 eexists; split; [reflexivity | unfold servings; lia]|]).
  contradiction.
Qed.

(** The cost of a meal in ten-thousandths: no meal is cheaper than 23257,
    and one meal only costs that. *)
Lemma servings_cost (zfr zr zfe zfa zma zol : Z) :
  servings zfr zr zfe zfa zma zol ->
  (23257 <= 1649 * zfr + 480 * zr + 625 * zfe + 1780 * zfa + 8450 * zma + 1110 * zol /\
   (1649 * zfr + 480 * zr + 625 * zfe + 1780 * zfa + 8450 * zma + 1110 * zol = 23257 ->
    [zfr; zr; zfe; zfa; zma; zol] = [3; 7; 4; 1; 1; 2]))%Z.
Proof.
  intros H. apply servings_nine in H. unfold feasible_meals in H. cbn [In] in H.
  repeat (destruct H as [H|H];
          [injection H as <- <- <- <- <- <-;
           split; [lia | intros E; first [reflexivity | exfalso; lia]]|]).
  contradiction.
Qed.

Lemma var_of_names :
  var_of "FRANGO" = frango /\ var_of "FEIJÃO" = feijao /\
  var_of "FAROFA" = farofa /\ var_of "MAÇÃ" = apple.
Proof. repeat split; vm_compute; reflexivity. Qed.

Lemma plate_inv (st : Store) (zs : list Z) :
  plate st zs ->
  exists zfr zr zfe zfa zma zol,
    zs = [zfr; zr; zfe; zfa; zma; zol] /\
    serves st frango zfr /\ serves st (var_of "ARROZ_BRANCO") zr /\ serves st feijao zfe /\
    serves st farofa zfa /\ serves st apple zma /\ serves st (var_of "ÓLEO_DE_SOJA") zol.
Proof.
  unfold plate, Ingredients. intros H.
  destruct var_of_names as (E1 & E2 & E3 & E4).
  repeat match goal with
         | H : Forall2 _ (_ :: _) _ |- _ =>
             apply Forall2_cons_inv_l in H; destruct H as (? & ? & ? & H & ->)
         end.
  apply Forall2_nil_inv_l in H. subst. cbv beta in *.
  rewrite E1, E2, E3, E4 in *. do 6 eexists. repeat split; eassumption.
Qed.

Lemma plate_intro (st : Store) (zfr zr zfe zfa zma zol : Z) :
  serves st frango zfr -> serves st (var_of "ARROZ_BRANCO") zr -> serves st feijao zfe ->
  serves st farofa zfa -> serves st apple zma -> serves st (var_of "ÓLEO_DE_SOJA") zol ->
  plate st [zfr; zr; zfe; zfa; zma; zol].
Proof.
  intros. unfold plate, Ingredients.
  destruct var_of_names as (E1 & E2 & E3 & E4).
  repeat (apply List.Forall2_cons; [rewrite ?E1, ?E2, ?E3, ?E4; assumption|]).
  apply List.Forall2_nil.
Qed.

Ltac open_plate P :=
  let E := fresh "E" in
  apply plate_inv in P;
  destruct P as (? & ? & ? & ? & ? & ? & E & (?fr & ?Efr & ?Hfr) & (?r & ?Er & ?Hr) &
                 (?fe & ?Efe & ?Hfe) & (?fa & ?Efa & ?Hfa) & (?ma & ?Ema & ?Hma) &
                 (?ol & ?Eol & ?Hol));
  injection E as <- <- <- <- <- <-.

Lemma feasible_servings (st : Store) :
  feasible st problem ->
  exists zfr zr zfe zfa zma zol,
    plate st [zfr; zr; zfe; zfa; zma; zol] /\ servings zfr zr zfe zfa zma zol.
Proof.
  intros H. destruct (feasible_meal st H) as (r & fa & fe & fr & ma & ol & M).
  destruct (meal_servings _ _ _ _ _ _ _ M) as (zfr & zr & zfe & zfa & zma & zol & E & Z).
  destruct E as (? & ? & ? & ? & ? & ?). destruct M.
  exists zfr, zr, zfe, zfa, zma, zol. split; [|exact Z].
  apply plate_intro; eexists; split; eassumption.
Qed.

Ltac give_variable x z :=
  apply List.Forall_cons;
  [ exists x; split; [assumption|]; split; [|split];
    [ | | intros _; exists z; assumption ] | ].

Ltac read_values :=
  cbn [lhs sense rhs snd value terms constant value_from];
  repeat match goal with
         | Ev : varValue ?st ?v = Some _ |- context [varValue ?st ?v] => rewrite Ev
         end;
  reflexivity.

Lemma servings_feasible (st : Store) (zfr zr zfe zfa zma zol : Z) :
  plate st [zfr; zr; zfe; zfa; zma; zol] -> servings zfr zr zfe zfa zma zol ->
  feasible st problem.
Proof.
  intros P Z. open_plate P. unfold servings in Z.
  destruct Z as (B1 & B2 & B3 & B4 & [B5 B6] & B7 & C & [P1 P2] & [F1 F2] & [K1 K2] & S).
  to_Q_in B1. to_Q_in B2. to_Q_in B3. to_Q_in B4. to_Q_in B5. to_Q_in B6. to_Q_in B7.
  to_Q_in C. to_Q_in P1. to_Q_in P2. to_Q_in F1. to_Q_in F2. to_Q_in K1. to_Q_in K2. to_Q_in S.
  split.
  - rewrite problem_variables.
    give_variable r zr; [change (0 <= r)%Q; lra | exact I |].
    give_variable fa zfa; [change (1 <= fa)%Q; lra | exact I |].
    give_variable fe zfe; [change (4 <= fe)%Q; lra | exact I |].
    give_variable fr zfr; [change (3 <= fr)%Q; lra | exact I |].
    give_variable ma zma; [change (1 <= ma)%Q; lra | change (ma <= 1)%Q; lra |].
    give_variable ol zol; [change (0 <= ol)%Q; lra | exact I |].
    apply List.Forall_nil.
  - normal_in Efr frango. normal_in Er (var_of "ARROZ_BRANCO"). normal_in Efe feijao.
    normal_in Efa farofa. normal_in Ema apple. normal_in Eol (var_of "ÓLEO_DE_SOJA").
    normal_goal (constraints problem).
    repeat (apply List.Forall_cons;
            [eexists; split; [read_values | cbn -[Qle Qeq Qplus Qmult]; lra]|]).
    apply List.Forall_nil.
Qed.

(** X7.  The feasible assignments of the model are the nine meals of
    [feasible_meals]: an assignment is feasible exactly when the servings it
    gives to the six ingredients are one of them. *)
Theorem feasible_iff_one_of_nine (st : Store) :
  feasible st problem <-> exists zs, In zs feasible_meals /\ plate st zs.
Proof.
  split.
  - intros H. destruct (feasible_servings st H) as (zfr & zr & zfe & zfa & zma & zol & P & Z).
    eexists. split; [apply servings_nine; exact Z | exact P].
  - intros (zs & Hin & P).
    destruct (nine_servings zs Hin) as (zfr & zr & zfe & zfa & zma & zol & -> & Z).
    eapply servings_feasible; eassumption.
Qed.

(** X8.  Rice and oil have the lower bound 0 in the model, and oil no upper
    bound, yet every feasible assignment has 4 to 7 servings of rice and
    exactly 2 of oil; in particular the rice meets the lower bound of the
    variable [arroz], which the script keeps under the key ARROZ. *)
Theorem rice_and_oil_forced (st : Store) :
  feasible st problem ->
  lowBound (var_of "ARROZ_BRANCO") = Some 0%Q /\
  lowBound (var_of "ÓLEO_DE_SOJA") = Some 0%Q /\ upBound (var_of "ÓLEO_DE_SOJA") = None /\
  exists r ol,
    varValue st (var_of "ARROZ_BRANCO") = Some r /\
    varValue st (var_of "ÓLEO_DE_SOJA") = Some ol /\
    (4 <= r <= 7)%Q /\ above_low arroz r /\ (ol == 2)%Q.
Proof.
  intros H. do 3 (split; [vm_compute; reflexivity|]).
  destruct (feasible_servings st H) as (zfr & zr & zfe & zfa & zma & zol & P & Z).
  open_plate P. exists r, ol. split; [assumption|]. split; [assumption|].
  assert (B : (4 <= zr <= 7 /\ zol = 2)%Z) by (unfold servings in Z; lia).
  destruct B as ([B1 B2] & ->). to_Q_in B1. to_Q_in B2.
  change (inject_Z 2) with 2%Q in Hol.
  split; [lra|]. split; [change (1 <= r)%Q; lra | exact Hol].
Qed.

(** The meal [a_meal] is feasible, with 7 servings of rice and 2 of oil. *)
Lemma rice_and_oil_forced_witness :
  feasible a_meal problem /\
  exists r ol,
    varValue a_meal (var_of "ARROZ_BRANCO") = Some r /\
    varValue a_meal (var_of "ÓLEO_DE_SOJA") = Some ol /\
    (4 <= r <= 7)%Q /\ above_low arroz r /\ (ol == 2)%Q.
Proof.
  assert (H : feasible a_meal problem) by (apply feasibleb_sound; vm_compute; reflexivity).
  split; [exact H | apply (rice_and_oil_forced a_meal H)].
Defined.

(** ** The cheapest meal *)

Lemma plate_cost (st : Store) (zfr zr zfe zfa zma zol : Z) :
  plate st [zfr; zr; zfe; zfa; zma; zol] ->
  exists s, value st cost_expr = Some s /\
    (s * 10000 ==
     inject_Z (1649 * zfr + 480 * zr + 625 * zfe + 1780 * zfa + 8450 * zma + 1110 * zol))%Q.
Proof.
  intros P. open_plate P.
  normal_in Efr frango. normal_in Er (var_of "ARROZ_BRANCO"). normal_in Efe feijao.
  normal_in Efa farofa. normal_in Ema apple. normal_in Eol (var_of "ÓLEO_DE_SOJA").
  normal_goal cost_expr. eexists. split; [read_values | to_Q; lra].
Qed.

Lemma a_meal_cost : exists s0, value a_meal cost_expr = Some s0 /\ (s0 == 2.3257)%Q.
Proof. eexists. split; vm_compute; reflexivity. Qed.

(** X9.  The meal of 3 servings of chicken, 7 of rice, 4 of beans, 1 of
    farofa, 1 apple and 2 of oil is feasible and costs 2.3257; no feasible
    assignment costs less, and one that costs as much is that meal. *)
Theorem cheapest_meal (st : Store) :
  feasible st problem ->
  exists s s0,
    value st cost_expr = Some s /\
    feasible a_meal problem /\ plate a_meal [3; 7; 4; 1; 1; 2]%Z /\
    value a_meal cost_expr = Some s0 /\ (s0 == 2.3257)%Q /\
    (s0 <= s)%Q /\ ((s == s0)%Q -> plate st [3; 7; 4; 1; 1; 2]%Z).
Proof.
  intros H. destruct (feasible_servings st H) as (zfr & zr & zfe & zfa & zma & zol & P & Z).
  destruct (plate_cost _ _ _ _ _ _ _ P) as (s & Es & Hs).
  destruct (servings_cost _ _ _ _ _ _ Z) as [Hle Heq].
  destruct a_meal_cost as (s0 & E0 & H0).
  exists s, s0. split; [exact Es|].
  split; [apply feasibleb_sound; vm_compute; reflexivity|].
  split.
  { apply plate_intro; eexists; (split; [vm_compute; reflexivity | reflexivity]). }
  split; [exact E0|]. split; [exact H0|].
  set (c := (1649 * zfr + 480 * zr + 625 * zfe + 1780 * zfa + 8450 * zma + 1110 * zol)%Z) in *.
  split.
  - rewrite Zle_Qle in Hle. change (inject_Z 23257) with 23257%Q in Hle. lra.
  - intros E. assert (Ec : c = 23257%Z).
    { apply inject_Z_injective. change (inject_Z 23257) with 23257%Q. lra. }
    specialize (Heq Ec). injection Heq as -> -> -> -> -> ->. exact P.
Qed.

(** At [a_meal] itself the bound is met. *)
Lemma cheapest_meal_witness :
  feasible a_meal problem /\
  exists s s0, value a_meal cost_expr = Some s /\ (s0 == 2.3257)%Q /\ (s0 <= s)%Q.
Proof.
  assert (H : feasible a_meal problem) by (apply feasibleb_sound; vm_compute; reflexivity).
  split; [exact H|].
  destruct (cheapest_meal a_meal H) as (s & s0 & Es & _ & _ & _ & H0 & Hle & _).
  exists s, s0. split; [exact Es|]. split; [exact H0 | exact Hle].
Defined.

(** ** The whole report *)

Lemma print_total_value (what : string) (table : gmap string Q) (st : Store) (y : Q) :
  In table [calorieAmount; proteinAmount; fatAmount; carbohydrateAmount; saltAmount] ->
  value st (nutrient_expr table) = Some y ->
  print_total what table (g_ingredient_vars globals) st = Ok [PrintAmount what y].
Proof.
  intros T V. unfold print_total. fold ingredient_vars.
  assert (E : total table ingredient_vars = Ok (nutrient_expr table)).
  { cbn [In] in T. destruct T as [<-|[<-|[<-|[<-|[<-|[]]]]]]; vm_compute; reflexivity. }
  rewrite E. cbn [mbind result_bind]. rewrite V. reflexivity.
Qed.

(** The script run to its end. *)
Lemma main_prints (solve : LpProblem -> Z * Store) (status : Z) (label : string)
    (st : Store) (cost cal pro fat carb salt : Q) :
  solve problem = (status, st) ->
  LpStatus !! status = Some label ->
  value st cost_expr = Some cost ->
  value st (nutrient_expr calorieAmount) = Some cal ->
  value st (nutrient_expr proteinAmount) = Some pro ->
  value st (nutrient_expr fatAmount) = Some fat ->
  value st (nutrient_expr carbohydrateAmount) = Some carb ->
  value st (nutrient_expr saltAmount) = Some salt ->
  main solve =
    (PrintStatus label
       :: map (fun v => PrintVariable (name v) (varValue st v)) (variables problem)
       ++ [ PrintAmount "Total Cost per meal" cost; PrintAmount "Total calories" cal;
            PrintAmount "Total protein" pro; PrintAmount "Total fat" fat;
            PrintAmount "Total carbohydrate" carb; PrintAmount "Total salt" salt ],
     None).
Proof.
  intros S L Ecost Ecal Epro Efat Ecarb Esalt.
  rewrite main_reports, S. cbn [fst snd].
  unfold report, print_status, print_variables. rewrite L.
  rewrite print_cost_problem, Ecost.
  rewrite (print_total_value _ calorieAmount st cal) by (cbn [In]; tauto || assumption).
  rewrite (print_total_value _ proteinAmount st pro) by (cbn [In]; tauto || assumption).
  rewrite (print_total_value _ fatAmount st fat) by (cbn [In]; tauto || assumption).
  rewrite (print_total_value _ carbohydrateAmount st carb) by (cbn [In]; tauto || assumption).
  rewrite (print_total_value _ saltAmount st salt) by (cbn [In]; tauto || assumption).
  rewrite !run_steps_ok. cbn [run_steps fst snd app]. fold problem. reflexivity.
Qed.

(** Every expression of the report has a value where the six variables of
    the problem have one. *)
Lemma report_values (st : Store) (e : LpAffineExpression) :
  Forall (fun v => is_Some (varValue st v)) (variables problem) ->
  In e [ cost_expr; nutrient_expr calorieAmount; nutrient_expr proteinAmount;
         nutrient_expr fatAmount; nutrient_expr carbohydrateAmount;
         nutrient_expr saltAmount ] ->
  exists y, value st e = Some y.
Proof.
  intros H He. rewrite problem_variables in H.
  apply Forall_cons in H as [Hr H]. apply Forall_cons in H as [Hfa H].
  apply Forall_cons in H as [Hfe H]. apply Forall_cons in H as [Hfr H].
  apply Forall_cons in H as [Hma H]. apply Forall_cons in H as [Hol _].
  normal_in Hr (var_of "ARROZ_BRANCO"). normal_in Hfa farofa. normal_in Hfe feijao.
  normal_in Hfr frango. normal_in Hma apple. normal_in Hol (var_of "ÓLEO_DE_SOJA").
  assert (D : defined st (terms e)).
  { cbn [In] in He. destruct He as [<-|[<-|[<-|[<-|[<-|[<-|[]]]]]]].
    - normal_goal (terms cost_expr).
      repeat (apply List.Forall_cons; [assumption|]). apply List.Forall_nil.
    - normal_goal (terms (nutrient_expr calorieAmount)).
      repeat (apply List.Forall_cons; [assumption|]). apply List.Forall_nil.
    - normal_goal (terms (nutrient_expr proteinAmount)).
      repeat (apply List.Forall_cons; [assumption|]). apply List.Forall_nil.
    - normal_goal (terms (nutrient_expr fatAmount)).
      repeat (apply List.Forall_cons; [assumption|]). apply List.Forall_nil.
    - normal_goal (terms (nutrient_expr carbohydrateAmount)).
      repeat (apply List.Forall_cons; [assumption|]). apply List.Forall_nil.
    - normal_goal (terms (nutrient_expr saltAmount)).
      repeat (apply List.Forall_cons; [assumption|]). apply List.Forall_nil. }
  exact (value_from_defined st (terms e) (constant e) D).
Qed.

(** X10.  With a status that [LpStatus] knows, the script ends without an
    exception exactly when each of the six variables of the problem has a
    value. *)
Theorem main_ends_iff_values (solve : LpProblem -> Z * Store)
    (status : Z) (label : string) (st : Store) :
  solve problem = (status, st) ->
  LpStatus !! status = Some label ->
  ((main solve).2 = None <->
   Forall (fun v => is_Some (varValue st v)) (variables problem)).
Proof.
  intros S L. split.
  - rewrite main_reports, S. cbn [fst snd].
    unfold report, print_status, print_variables. rewrite L.
    rewrite !run_steps_ok, print_cost_problem. cbn [snd].
    destruct (value st cost_expr) as [y|] eqn:E; [|cbn [run_steps snd]; discriminate].
    intros _. apply value_some_defined in E. revert E. unfold defined.
    normal_goal (terms cost_expr). intros D. rewrite problem_variables.
    apply Forall_cons in D as [Hfr D]. apply Forall_cons in D as [Hr D].
    apply Forall_cons in D as [Hfe D]. apply Forall_cons in D as [Hfa D].
    apply Forall_cons in D as [Hma D]. apply Forall_cons in D as [Hol _].
    repeat (apply List.Forall_cons; [assumption|]). apply List.Forall_nil.
  - intros H.
    destruct (report_values st cost_expr H) as (cost & Ecost); [cbn [In]; tauto|].
    destruct (report_values st (nutrient_expr calorieAmount) H) as (cal & Ecal);
      [cbn [In]; tauto|].
    destruct (report_values st (nutrient_expr proteinAmount) H) as (pro & Epro);
      [cbn [In]; tauto|].
    destruct (report_values st (nutrient_expr fatAmount) H) as (fat & Efat);
      [cbn [In]; tauto|].
    destruct (report_values st (nutrient_expr carbohydrateAmount) H) as (carb & Ecarb);
      [cbn [In]; tauto|].
    destruct (report_values st (nutrient_expr saltAmount) H) as (salt & Esalt);
      [cbn [In]; tauto|].
    rewrite (main_prints solve status label st _ _ _ _ _ _ S L
               Ecost Ecal Epro Efat Ecarb Esalt).
    reflexivity.
Qed.

(** A run that leaves no value ends with an exception. *)
Lemma main_ends_iff_values_witness :
  returning LpStatusInfeasible ∅ problem = (LpStatusInfeasible, ∅) /\
  LpStatus !! LpStatusInfeasible = Some "Infeasible" /\
  ((main (returning LpStatusInfeasible ∅)).2 = None <->
   Forall (fun v => is_Some (varValue ∅ v)) (variables problem)).
Proof.
  assert (S : returning LpStatusInfeasible ∅ problem = (LpStatusInfeasible, ∅))
    by reflexivity.
  assert (L : LpStatus !! LpStatusInfeasible = Some "Infeasible") by (vm_compute; reflexivity).
  split; [exact S|]. split; [exact L|].
  apply (main_ends_iff_values _ LpStatusInfeasible "Infeasible" ∅ S L).
Defined.

Ltac plate_value :=
  eexists; split; [read_values | to_Q; lra].

(** The totals of a plate, in thousandths. *)
Lemma plate_totals (st : Store) (zfr zr zfe zfa zma zol : Z) :
  plate st [zfr; zr; zfe; zfa; zma; zol] ->
  (exists y, value st (nutrient_expr calorieAmount) = Some y /\
     (y * 1000 == inject_Z (17300 * zfr + 35812 * zr + 32903 * zfe + 40600 * zfa
                            + 81289 * zma + 88400 * zol))%Q) /\
  (exists y, value st (nutrient_expr proteinAmount) = Some y /\
     (y * 1000 == inject_Z (3091 * zfr + 724 * zr + 1998 * zfe + 210 * zfa + 299 * zma))%Q) /\
  (exists y, value st (nutrient_expr fatAmount) = Some y /\
     (y * 1000 == inject_Z (451 * zfr + 28 * zr + 126 * zfe + 910 * zfa + 325 * zma
                            + 10000 * zol))%Q) /\
  (exists y, value st (nutrient_expr carbohydrateAmount) = Some y /\
     (y * 1000 == inject_Z (7888 * zr + 6122 * zfe + 8030 * zfa + 21567 * zma))%Q) /\
  (exists y, value st (nutrient_expr saltAmount) = Some y /\
     (y * 1000 == inject_Z (7700 * zfr + 57 * zr + 575000 * zfa + 17160 * zma))%Q).
Proof.
  intros P. open_plate P.
  normal_in Efr frango. normal_in Er (var_of "ARROZ_BRANCO"). normal_in Efe feijao.
  normal_in Efa farofa. normal_in Ema apple. normal_in Eol (var_of "ÓLEO_DE_SOJA").
  normal_goal (nutrient_expr calorieAmount). normal_goal (nutrient_expr proteinAmount).
  normal_goal (nutrient_expr fatAmount). normal_goal (nutrient_expr carbohydrateAmount).
  normal_goal (nutrient_expr saltAmount).
  repeat split; plate_value.
Qed.



Lemma a_meal_optimal : optimal_for a_meal.
Proof.
  split; [apply feasibleb_sound; vm_compute; reflexivity|].
  intros st' s s' F' E E'.
  destruct (feasible_servings st' F') as (zfr & zr & zfe & zfa & zma & zol & P & Z).
  destruct (plate_cost _ _ _ _ _ _ _ P) as (s'' & Es & Hs).
  rewrite Es in E'. injection E' as ->.
  destruct (servings_cost _ _ _ _ _ _ Z) as [Hle _].
  destruct a_meal_cost as (s0 & E0 & H0). rewrite E0 in E. injection E as ->.
  rewrite Zle_Qle in Hle. rewrite <- Hs in Hle. change (inject_Z 23257) with 23257%Q in Hle.
  lra.
Qed.


